(** * DynamicAI ChatBot: the conversational understanding and orchestration core

    A shallow embedding of [nlp_engine.py], [sentiment_engine.py],
    [gemini_client.py], [analytics_store.py] and [chatbot_core.py], and of
    the escaping and the input handler of [app.py], followed by the
    properties the design document states about them and by further
    properties of the code.

    Conventions of the embedding.
    - A Python [float] is an exact rational ([Q]); [round(x, n)] is rounding
      to the nearest multiple of [10^-n], ties to even.
    - A Python [str] is a [string]; text outside ASCII is held as its UTF-8
      bytes, and [strip], [splitlines], [lower] and [split] act on the ASCII
      white space, line breaks and letters.
    - A [dict] whose iteration order is observed is an association list in
      insertion order; a [dict] that is only looked up is a [gmap].
    - The libraries the program calls ([re], scikit-learn, the generative
      backend, the hash order of a [set]) are interfaces (type classes): every
      theorem holds for all their implementations.

    Layout: the embedding, module by module; the definitions used to state
    the properties; small implementations of the interfaces, to run the
    program; facts about the builtins; then the properties, component by
    component, each named after the claim (C1 to C10) it settles; then the
    further properties (X1 to X23), component by component. *)

From Stdlib Require Import QArith Qround Lqa Ascii String.
From stdpp Require Import gmap strings list pretty sorting.

Local Open Scope string_scope.
Local Open Scope list_scope.

(* ================================================================== *)
(** * Python values and builtins *)
(* ================================================================== *)

Definition Qltb (x y : Q) : bool := negb (Qle_bool y x).

(** Nearest integer, ties to the even one. *)
Definition round_half_even (x : Q) : Z :=
  let f := Qfloor x in
  let r := (x - inject_Z f)%Q in
  if Qltb r (1 # 2) then f
  else if Qltb (1 # 2) r then (f + 1)%Z
  else if Z.even f then f else (f + 1)%Z.

(** [round(x, ndigits)] *)
Fixpoint pow10 (n : nat) : positive :=
  match n with
  | O => 1%positive
  | S n' => (10 * pow10 n')%positive
  end.

Definition py_round (ndigits : nat) (x : Q) : Q :=
  Qmake (round_half_even (x * inject_Z (Zpos (pow10 ndigits)))) (pow10 ndigits).

(** [max(a, b)]: the first of the largest arguments. *)
Definition py_max (a b : Q) : Q := if Qltb a b then b else a.

(** [l[:k]] for an [int] [k]: a negative [k] counts from the end. *)
Definition slice_to {A} (k : Z) (l : list A) : list A :=
  if (0 <=? k)%Z then firstn (Z.to_nat k) l
  else firstn (length l - Z.to_nat (- k)) l.

(** [numpy.argmax]: the first index holding the largest entry. *)
Fixpoint argmax_from (i best_i : nat) (best : Q) (l : list Q) : nat :=
  match l with
  | [] => best_i
  | x :: r =>
      if Qltb best x then argmax_from (S i) i x r
      else argmax_from (S i) best_i best r
  end.

Definition argmax (l : list Q) : nat :=
  match l with
  | [] => 0
  | x :: r => argmax_from 1 0 x r
  end.

(** A stable sort by insertion: [sorted(l, key=...)] and, on the ten
    similarities, [numpy.argsort]. [le a b] says that [a] may stand before [b]. *)
Fixpoint insert_sorted {A} (le : A -> A -> bool) (x : A) (l : list A) : list A :=
  match l with
  | [] => [x]
  | y :: r => if le x y then x :: l else y :: insert_sorted le x r
  end.

Definition stable_sort {A} (le : A -> A -> bool) (l : list A) : list A :=
  foldr (insert_sorted le) [] l.

Definition sorted_by_key {A} (key : A -> Q) (l : list A) : list A :=
  stable_sort (fun a b => Qle_bool (key a) (key b)) l.

Definition argsort (v : list Q) : list nat :=
  sorted_by_key (fun i => nth i v 0%Q) (seq 0 (length v)).

(** ** Insertion-ordered dictionaries *)

Section PyDict.
Context {V : Type}.

Fixpoint dict_get (k : string) (d : list (string * V)) : option V :=
  match d with
  | [] => None
  | (k', v) :: r => if String.eqb k k' then Some v else dict_get k r
  end.

(** [d[k] = v]: a key already present keeps its place. *)
Fixpoint dict_set (k : string) (v : V) (d : list (string * V)) : list (string * V) :=
  match d with
  | [] => [(k, v)]
  | (k', v') :: r =>
      if String.eqb k k' then (k, v) :: r else (k', v') :: dict_set k v r
  end.

Definition dict_keys (d : list (string * V)) : list string := map fst d.
End PyDict.

(** [list(dict.fromkeys(l))] *)
Definition fromkeys (l : list string) : list string :=
  dict_keys (fold_left (fun d k => dict_set k tt d) l []).

(** ** Strings *)

Definition is_space (c : ascii) : bool :=
  let n := nat_of_ascii c in
  (((9 <=? n) && (n <=? 13)) || ((28 <=? n) && (n <=? 32)))%nat.

Definition is_linebreak (c : ascii) : bool :=
  let n := nat_of_ascii c in
  (((10 <=? n) && (n <=? 13)) || ((28 <=? n) && (n <=? 30)))%nat.

Fixpoint drop_spaces (l : list ascii) : list ascii :=
  match l with
  | [] => []
  | c :: r => if is_space c then drop_spaces r else l
  end.

(** [s.strip()] *)
Definition strip (s : string) : string :=
  string_of_list_ascii
    (rev (drop_spaces (rev (drop_spaces (list_ascii_of_string s))))).

(** [s.splitlines()]: [cur] is the line being read, last character first. *)
Fixpoint splitlines_from (cur l : list ascii) : list string :=
  match l with
  | [] => match cur with [] => [] | _ => [string_of_list_ascii (rev cur)] end
  | c :: r =>
      if Ascii.eqb c "013"%char then
        match r with
        | c' :: r' =>
            if Ascii.eqb c' "010"%char
            then string_of_list_ascii (rev cur) :: splitlines_from [] r'
            else string_of_list_ascii (rev cur) :: splitlines_from [] r
        | [] => [string_of_list_ascii (rev cur)]
        end
      else if is_linebreak c
      then string_of_list_ascii (rev cur) :: splitlines_from [] r
      else splitlines_from (c :: cur) r
  end.

Definition splitlines (s : string) : list string :=
  splitlines_from [] (list_ascii_of_string s).

(** ["\n".join(lines)] *)
Fixpoint join_lines (lines : list string) : string :=
  match lines with
  | [] => ""
  | [l] => l
  | l :: r => l +:+ String "010"%char (join_lines r)
  end.

Definition lower_char (c : ascii) : ascii :=
  let n := nat_of_ascii c in
  if ((65 <=? n) && (n <=? 90))%nat then ascii_of_nat (n + 32) else c.

(** [s.lower()] *)
Definition lower (s : string) : string :=
  string_of_list_ascii (map lower_char (list_ascii_of_string s)).

(** [s.split()]: the maximal runs of characters that are not white space. *)
Fixpoint split_from (cur l : list ascii) : list string :=
  match l with
  | [] => match cur with [] => [] | _ => [string_of_list_ascii (rev cur)] end
  | c :: r =>
      if is_space c then
        match cur with
        | [] => split_from [] r
        | _ => string_of_list_ascii (rev cur) :: split_from [] r
        end
      else split_from (c :: cur) r
  end.

Definition split (s : string) : list string :=
  split_from [] (list_ascii_of_string s).

(** A value held in a [dict[str, Any]]. *)
Inductive PyVal : Type :=
  | PStr (s : string)
  | PFloat (q : Q).

Definition is_str (s : string) (v : option PyVal) : bool :=
  match v with
  | Some (PStr s') => String.eqb s' s
  | _ => false
  end.

(** What the f-strings of the program print: [str(float)] and the [repr] of
    lists and dictionaries of strings. *)
Class PyFormat : Type := {
  str_of_float : Q -> string;
  repr_str_list : list string -> string;
  repr_entities : list (string * list string) -> string
}.

Definition str_of_int (n : nat) : string := pretty n.

Definition str_of_val `{PyFormat} (v : PyVal) : string :=
  match v with
  | PStr s => s
  | PFloat q => str_of_float q
  end.

(** [max(it, key=...)]: the first item of [it] whose key is the largest. *)
Fixpoint max_by_from {A} (key : A -> nat) (best : A) (l : list A) : A :=
  match l with
  | [] => best
  | x :: r =>
      if (key best <? key x)%nat then max_by_from key x r
      else max_by_from key best r
  end.

(** [l.count(x)] *)
Fixpoint list_count (x : string) (l : list string) : nat :=
  match l with
  | [] => 0
  | y :: r => if String.eqb y x then S (list_count x r) else list_count x r
  end.

(** The order in which [set(l)] is iterated: each member of [l] once, in an
    order that follows the hashes of the strings and not the order of [l]. *)
Class SetOrder : Type := {
  set_iter : list string -> list string;
  set_iter_NoDup : forall l, NoDup (set_iter l);
  set_iter_elem : forall l x, In x (set_iter l) <-> In x l
}.

(* ================================================================== *)
(** * nlp_engine.py *)
(* ================================================================== *)

(** The module [re]: [re.search(pat, text, re.IGNORECASE)] finds a match,
    and [re.findall(pattern, text)] (the patterns below have no capturing
    group, so it lists the matched strings from left to right). *)
Class RegexEngine : Type := {
  re_search_ignorecase : string -> string -> bool;
  re_findall : string -> string -> list string
}.

(** [TfidfVectorizer(stop_words="english")] fitted on a corpus: whether
    [transform([text])] (or the similarity computation) raises, and the
    cosine similarity of the vector of [text] to that of a corpus document.
    [cosine_similarity(user_vec, corpus_vecs)[0]] has one entry per document. *)
Class Vectoriser : Type := {
  transform_raises : list string -> string -> bool;
  cosine_to : list string -> string -> string -> Q
}.

Definition INTENT_PATTERNS : list (string * list string) :=
  [ ("greeting",
      ["\b(hi|hello|hey|howdy|good\s*(morning|afternoon|evening)|what'?s\s*up|sup|yo)\b"]);
    ("farewell",
      ["\b(bye|goodbye|see\s*you|later|take\s*care|have\s*a\s*(good|nice)\s*(day|night)|quit|exit)\b"]);
    ("thanks",
      ["\b(thank(s|you|s?\s*a\s*lot|s?\s*so\s*much)|appreciate|grateful|cheers)\b"]);
    ("help",
      ["\b(help|assist|support|what\s*can\s*you\s*do|how\s*do\s*i|usage|guide)\b"]);
    ("weather",
      ["\b(weather|temperature|forecast|rain|sunny|cloudy|wind)\b"]);
    ("time_date",
      ["\b(time|date|day|today|tomorrow|yesterday|clock|what\s*time)\b"]);
    ("joke",
      ["\b(joke|funny|laugh|humor|amuse|entertain)\b"]);
    ("sentiment_query",
      ["\b(how\s*(am\s*i|are\s*you|do\s*i\s*feel)|feel(ing)?|mood|emotion|sentiment)\b"]);
    ("name_identity",
      ["\b(your\s*name|who\s*are\s*you|what\s*are\s*you|introduce\s*yourself|are\s*you\s*(ai|bot|robot))\b"]);
    ("capability",
      ["\b(what\s*can|features|abilities|skills|trained|capable|do\s*you\s*support)\b"]);
    ("general", []) ].

(** The double quote, which the URL pattern excludes. *)
Definition dquote : string := String (ascii_of_nat 34) EmptyString.

Definition NER_PATTERNS : list (string * string) :=
  [ ("EMAIL", "[a-zA-Z0-9_.+-]+@[a-zA-Z0-9-]+\.[a-zA-Z0-9-.]+");
    ("PHONE", "(?:\+?\d{1,3}[-.\s]?)?\(?\d{2,4}\)?[-.\s]?\d{3,4}[-.\s]?\d{3,6}");
    ("URL", "https?://[^\s<>\" +:+ dquote +:+ "']+");
    ("DATE", "\b(?:(?:0?[1-9]|[12]\d|3[01])[-/](?:0?[1-9]|1[0-2])[-/]\d{2,4}|\d{4}[-/](?:0?[1-9]|1[0-2])[-/](?:0?[1-9]|[12]\d|3[01]))\b");
    ("TIME", "\b\d{1,2}:\d{2}(?:\s*[AaPp][Mm])?\b");
    ("CURRENCY", "(?:[\$€£₹]\s*\d+(?:,\d{3})*(?:\.\d{1,2})?|\d+(?:,\d{3})*(?:\.\d{1,2})?\s*(?:USD|EUR|GBP|INR|dollars?|euros?|pounds?|rupees?))");
    ("PERSON", "\b(?:Mr|Mrs|Ms|Dr|Prof)\.?\s+[A-Z][a-z]+(?:\s+[A-Z][a-z]+){0,2}\b");
    ("CITY", "\b(?:New\s*York|Los\s*Angeles|Chicago|Houston|Phoenix|San\s*Francisco|London|Paris|Tokyo|Mumbai|Delhi|Bangalore|Bengaluru|Chennai|Kolkata|Sydney|Berlin|Dubai|Singapore)\b") ].

(** ** IntentRecogniser *)

Definition _TFIDF_CORPUS : list (string * string) :=
  [ ("greeting", "hello hi hey good morning");
    ("farewell", "bye goodbye see you later take care");
    ("thanks", "thank you thanks a lot appreciate");
    ("help", "help me how do I what can you do guide");
    ("weather", "what is the weather forecast temperature");
    ("time_date", "what time is it what is today's date");
    ("joke", "tell me a joke make me laugh funny");
    ("sentiment_query", "how are you feeling mood emotion");
    ("name_identity", "what is your name who are you introduce yourself");
    ("capability", "what features do you have what can you do abilities") ].

Definition _corpus_labels : list string := map fst _TFIDF_CORPUS.
Definition _corpus_texts : list string := map snd _TFIDF_CORPUS.

Section IntentRecogniser.
Context `{RegexEngine} `{Vectoriser}.

(** One entry of the catalogue matches when one of its patterns does. *)
Definition entry_matches (text : string) (pats : list string) : bool :=
  existsb (fun pat => re_search_ignorecase pat text) pats.

(** Stage 1 of [predict]: the label of the first entry that matches. *)
Fixpoint regex_first (text : string) (cat : list (string * list string))
  : option string :=
  match cat with
  | [] => None
  | (label, pats) :: rest =>
      if String.eqb label "general" then regex_first text rest
      else if entry_matches text pats then Some label
      else regex_first text rest
  end.

(** [cosine_similarity(user_vec, self._corpus_vecs)[0]], or [None] when
    the [try] block raises. *)
Definition similarities (text : string) : option (list Q) :=
  if transform_raises _corpus_texts text then None
  else Some (map (cosine_to _corpus_texts text) _corpus_texts).

Definition predict (text : string) : string * Q :=
  match regex_first text INTENT_PATTERNS with
  | Some label => (label, 0.95%Q)
  | None =>
      match similarities text with
      | Some sims =>
          let best_idx := argmax sims in
          let best_sim := nth best_idx sims 0%Q in
          if Qltb 0.12 best_sim
          then (nth best_idx _corpus_labels "", py_round 3 best_sim)
          else ("general", 0.50%Q)
      | None => ("general", 0.50%Q)
      end
  end.

(** The first loop of [predict_multi]: one hit per entry that matches. *)
Fixpoint regex_hits (text : string) (cat : list (string * list string))
  : list (string * Q) :=
  match cat with
  | [] => []
  | (label, pats) :: rest =>
      if String.eqb label "general" then regex_hits text rest
      else if entry_matches text pats
      then (label, 0.95%Q) :: regex_hits text rest
      else regex_hits text rest
  end.

(** The statistical candidates of [predict_multi]. *)
Definition tfidf_hits (text : string) (top_k : Z) : list (string * Q) :=
  match similarities text with
  | Some sims =>
      let ranked := slice_to top_k (rev (argsort sims)) in
      map (fun idx => (nth idx _corpus_labels "", py_round 3 (nth idx sims 0%Q)))
          (filter (fun idx => Qltb 0.05 (nth idx sims 0%Q) = true) ranked)
  | None => []
  end.

(** The loop that keeps the highest confidence per label. *)
Definition keep_highest (seen : list (string * Q)) (hit : string * Q)
  : list (string * Q) :=
  let '(label, conf) := hit in
  match dict_get label seen with
  | None => dict_set label conf seen
  | Some c => if Qltb c conf then dict_set label conf seen else seen
  end.

Definition predict_multi (text : string) (top_k : Z) : list (string * Q) :=
  let hits := regex_hits text INTENT_PATTERNS in
  let hits := match hits with [] => tfidf_hits text top_k | _ => hits end in
  let hits := match hits with [] => [("general", 0.50%Q)] | _ => hits end in
  let seen := fold_left keep_highest hits [] in
  slice_to top_k (sorted_by_key (fun x => (- snd x)%Q) seen).
End IntentRecogniser.

(** ** NERExtractor *)

Section NERExtractor.
Context `{RegexEngine}.

(** The loop of [extract] over a table of patterns. *)
Definition extract_with (table : list (string * string)) (text : string)
  : list (string * list string) :=
  fold_left
    (fun entities '(label, pattern) =>
       let matches := re_findall pattern text in
       match matches with
       | [] => entities
       | _ => dict_set label (fromkeys matches) entities
       end)
    table [].

Definition extract (text : string) : list (string * list string) :=
  extract_with NER_PATTERNS text.
End NERExtractor.

(** ** ContextMemory *)

(** A turn is a [dict] with the keys ["role"], ["text"], ["intent"],
    ["entities"] and ["timestamp"]. *)
Record Turn : Type := {
  turn_role : string;
  turn_text : string;
  turn_intent : option string;
  turn_entities : list (string * list string);
  turn_timestamp : Q
}.

(** [deque(maxlen=window)] raises for a negative [window], so the window of
    a memory that exists is a natural number. *)
Record ContextMemory : Type := {
  window : nat;
  turns : list Turn;
  entities_seen : list (string * list string);
  topic_history : list string
}.

Definition ContextMemory_init (window : nat) : ContextMemory :=
  {| window := window; turns := []; entities_seen := []; topic_history := [] |}.

(** [deque.append] on a bounded deque: the item goes to the right end and,
    when the deque is then over its bound, the leftmost item is dropped. *)
Definition deque_append {A} (maxlen : nat) (q : list A) (x : A) : list A :=
  let q' := q ++ [x] in
  if (maxlen <? length q')%nat then tl q' else q'.

(** [self.entities_seen.setdefault(k, []).extend(v)] *)
Definition extend_seen (seen : list (string * list string)) (kv : string * list string)
  : list (string * list string) :=
  let '(k, v) := kv in
  match dict_get k seen with
  | Some old => dict_set k (old ++ v) seen
  | None => dict_set k v seen
  end.

(** [now] is the reading of [time.time()]. *)
Definition add_turn (now : Q) (role text : string) (intent : option string)
    (entities : option (list (string * list string))) (m : ContextMemory)
  : ContextMemory :=
  let ents := match entities with Some e => e | None => [] end in
  let turn := {| turn_role := role; turn_text := text; turn_intent := intent;
                 turn_entities := ents; turn_timestamp := now |} in
  {| window := window m;
     turns := deque_append (window m) (turns m) turn;
     entities_seen := fold_left extend_seen ents (entities_seen m);
     topic_history :=
       match intent with
       | Some i =>
           if negb (String.eqb i "") && String.eqb role "user"
           then topic_history m ++ [i] else topic_history m
       | None => topic_history m
       end |}.

Section Summary.
Context `{SetOrder} `{PyFormat}.

(** [max(set(trail), key=trail.count)], and ["N/A"] for an empty trail.
    [max] of an empty set raises; [set_iter_elem] excludes it for a trail
    that is not empty. *)
Definition top_intent (trail : list string) : string :=
  match trail with
  | [] => "N/A"
  | _ =>
      match set_iter trail with
      | [] => ""
      | x :: r => max_by_from (fun l => list_count l trail) x r
      end
  end.

Definition format_summary (n : nat) (top : string) (keys : list string) : string :=
  str_of_int n +:+ " turns · dominant intent: " +:+ top +:+
  " · entities seen: " +:+ repr_str_list keys.

Definition get_summary (m : ContextMemory) : string :=
  let n := length (turns m) in
  format_summary n (top_intent (topic_history m)) (dict_keys (entities_seen m)).
End Summary.

Definition clear (m : ContextMemory) : ContextMemory :=
  {| window := window m; turns := []; entities_seen := []; topic_history := [] |}.

(** [get_history_for_gemini]: for each turn of the window its role and
    its parts; the one part, [{"text": ...}], is held as the text. *)
Definition get_history_for_gemini (m : ContextMemory) : list (string * list string) :=
  map (fun t => (turn_role t, [turn_text t])) (turns m).

(* ================================================================== *)
(** * sentiment_engine.py *)
(* ================================================================== *)

(** The two fitted pipelines: [predict_proba([text])[0]] gives one
    probability per class, in the order of [classes_]. *)
Class Pipelines : Type := {
  sentiment_proba : string -> string -> Q;
  emotion_proba : string -> string -> Q
}.

(** [classes_]: the labels of the training corpus, sorted. *)
Definition _SENTIMENT_CLASSES : list string := ["negative"; "neutral"; "positive"].
Definition _EMOTION_CLASSES : list string :=
  ["anger"; "fear"; "joy"; "neutral"; "sadness"; "surprise"].

Definition _EMOJI_MAP : gmap string string :=
  list_to_map
    [ ("joy", "😄"); ("anger", "😠"); ("sadness", "😢");
      ("fear", "😨"); ("surprise", "😲"); ("neutral", "😐") ].

Definition _default_result : gmap string PyVal :=
  list_to_map
    [ ("polarity", PStr "neutral"); ("polarity_conf", PFloat 0.5%Q);
      ("emotion", PStr "neutral"); ("emotion_conf", PFloat 0.5%Q);
      ("subjectivity", PStr "objective"); ("emoji", PStr "😐") ].

Definition _NEG_EMOTIONS : gset string := {[ "anger"; "fear"; "sadness" ]}.

Definition subj_words : gset string :=
  list_to_set
    [ "feel"; "love"; "hate"; "amazing"; "terrible"; "happy"; "sad";
      "great"; "awful"; "wonderful"; "horrible"; "excited"; "angry";
      "beautiful"; "ugly"; "best"; "worst"; "enjoy"; "dislike" ].

Section SentimentAnalyser.
Context `{Pipelines}.

(** The class of largest probability and that probability, rounded. *)
Definition classify (proba : string -> Q) (classes : list string) : string * Q :=
  let probs := map proba classes in
  let idx := argmax probs in
  (nth idx classes "", py_round 3 (nth idx probs 0%Q)).

Definition raw_polarity (text : string) : string * Q :=
  classify (sentiment_proba text) _SENTIMENT_CLASSES.

Definition raw_emotion (text : string) : string * Q :=
  classify (emotion_proba text) _EMOTION_CLASSES.

(** The polarity / emotion consistency fix. *)
Definition reconcile (emotion : string) (emo_conf : Q) (pol : string * Q)
  : string * Q :=
  let '(polarity, pol_conf) := pol in
  if bool_decide (emotion ∈ _NEG_EMOTIONS)
     && String.eqb polarity "neutral" && Qltb pol_conf 0.70
  then ("negative", py_round 3 (py_max pol_conf (emo_conf * 0.85)))
  else (polarity, pol_conf).

Definition subjectivity_of (text : string) : string :=
  let tokens : gset string := list_to_set (split (lower text)) in
  if bool_decide (tokens ∩ subj_words ≠ ∅) then "subjective" else "objective".

Definition analyse (text : string) : gmap string PyVal :=
  if String.eqb text "" || String.eqb (strip text) "" then _default_result
  else
    let '(emotion, emo_conf) := raw_emotion text in
    let '(polarity, pol_conf) := reconcile emotion emo_conf (raw_polarity text) in
    list_to_map
      [ ("polarity", PStr polarity); ("polarity_conf", PFloat pol_conf);
        ("emotion", PStr emotion); ("emotion_conf", PFloat emo_conf);
        ("subjectivity", PStr (subjectivity_of text));
        ("emoji", PStr (default "😐" (_EMOJI_MAP !! emotion))) ].

Definition analyse_batch (texts : list string) : list (gmap string PyVal) :=
  map analyse texts.
End SentimentAnalyser.

(* ================================================================== *)
(** * gemini_client.py *)
(* ================================================================== *)

(** [os.getenv] *)
Class Environ : Type := { getenv : string -> option string }.

(** The generative backend: configuring the model may raise ([None]); a
    chat session answers a message with text or raises ([None]), and its
    history may change either way. *)
Class GenAI : Type := {
  Model : Type;
  ChatSession : Type;
  generative_model : string -> string -> option Model;
  start_chat : Model -> list (string * string) -> ChatSession;
  send_message : ChatSession -> string -> ChatSession * option string
}.

Definition MAX_RETRIES : nat := 3.
Definition RETRY_BACKOFF : Q := 1.5%Q.

Definition _INTENT_FALLBACKS : gmap string string :=
  list_to_map
    [ ("greeting", "Hello! 👋 I'm DynamiChat. How can I help you today?");
      ("farewell", "Goodbye! 👋 It was great chatting with you. Feel free to come back anytime!");
      ("thanks", "You're welcome! 😊 Happy to help. Let me know if there's anything else.");
      ("help", "I can chat, answer questions, analyse sentiment, tell jokes, and more. Just ask away!");
      ("joke", "Why did the AI go to therapy? It had too many unresolved dependencies! 😄");
      ("weather", "I don't have live weather data, but you can check a weather service for the latest forecast!");
      ("time_date", "I don't have direct access to your clock, but your device should show the current time.") ].

(** [sentiment] may be [None]; an empty [dict] is falsy as well. *)
Definition _fallback_response (intent : string) (sentiment : option (gmap string PyVal))
  : string :=
  let prefix :=
    match sentiment with
    | Some s =>
        if bool_decide (s ≠ ∅) && is_str "negative" (s !! "polarity")
        then "I'm sorry you're having a tough time. " else ""
    | None => ""
    end in
  prefix +:+
  default "I'm here to help! Could you rephrase your question so I can assist better?"
          (_INTENT_FALLBACKS !! intent).

Definition _post_process (text : string) : string :=
  if String.eqb text "" then "*(empty response)*"
  else strip (join_lines (map strip (splitlines text))).

Section Prompt.
Context `{PyFormat}.

Definition _build_enriched_prompt (user_text intent : string) (intent_conf : Q)
    (entities : list (string * list string)) (sentiment : gmap string PyVal)
    (context_summary : string) : string :=
  let lines :=
    [ "[NLP Context]";
      "  Detected intent : " +:+ intent +:+ " (confidence " +:+
        str_of_float intent_conf +:+ ")" ] in
  let lines :=
    match entities with
    | [] => lines
    | _ => lines ++ ["  Entities         : " +:+ repr_entities entities]
    end in
  let lines :=
    if bool_decide (sentiment ≠ ∅)
    then lines ++
      [ "  Sentiment        : " +:+
          str_of_val (default (PStr "neutral") (sentiment !! "polarity")) +:+
          " (" +:+
          match sentiment !! "polarity_conf" with
          | Some v => str_of_val v
          | None => "0"
          end +:+ ") | Emotion: " +:+
          str_of_val (default (PStr "neutral") (sentiment !! "emotion")) +:+ " " +:+
          str_of_val (default (PStr "") (sentiment !! "emoji")) ]
    else lines in
  let lines :=
    if String.eqb context_summary "" then lines
    else lines ++ ["  Context          : " +:+ context_summary] in
  join_lines (lines ++ [""; "[User Message]" +:+ String "010"%char user_text]).
End Prompt.

(** What a call of [respond] does besides returning. *)
Inductive Effect : Type :=
  | SendMessage (attempt : nat)
  | LogWarning (attempt : nat)
  | Sleep (seconds : Q).

Definition is_send (e : Effect) : bool :=
  match e with SendMessage _ => true | _ => false end.

Definition attempts_made (log : list Effect) : nat :=
  length (List.filter is_send log).

Section GeminiClient.
Context `{GenAI} `{Environ} `{PyFormat}.

Definition API_KEY : string :=
  default "PASTE YOUR API KEY HERE" (getenv "GEMINI_API_KEY").
Definition MODEL_NAME : string :=
  default "gemini-2.0-flash" (getenv "GEMINI_MODEL").

Record GeminiClient : Type := {
  model : Model;
  _chat : ChatSession
}.

Definition seed_history : list (string * string) :=
  [ ("user", "You are initialising. Acknowledge with 'Ready'.");
    ("model", "Ready.") ].

(** [GeminiClient()]: [None] when the constructor raises. *)
Definition GeminiClient_init : option GeminiClient :=
  if String.eqb API_KEY "" then None
  else
    match generative_model API_KEY MODEL_NAME with
    | Some m => Some {| model := m; _chat := start_chat m seed_history |}
    | None => None
    end.

(** The loop [for attempt in range(1, MAX_RETRIES + 1)] of [respond], over
    the attempts that remain; the result is the session, the reply and the
    effects in the order they happen. *)
Fixpoint respond_attempts (attempts : list nat) (chat : ChatSession)
    (enriched intent : string) (sentiment : option (gmap string PyVal))
  : ChatSession * string * list Effect :=
  match attempts with
  | [] => (chat, _fallback_response intent sentiment, [])
  | attempt :: rest =>
      match send_message chat enriched with
      | (chat', Some response_text) =>
          (chat', _post_process response_text, [SendMessage attempt])
      | (chat', None) =>
          if (attempt =? MAX_RETRIES)%nat
          then (chat', _fallback_response intent sentiment,
                [SendMessage attempt; LogWarning attempt])
          else
            let '(chat'', reply, log) :=
              respond_attempts rest chat' enriched intent sentiment in
            (chat'', reply,
             [SendMessage attempt; LogWarning attempt;
              Sleep (RETRY_BACKOFF * inject_Z (Z.of_nat attempt))] ++ log)
      end
  end.

Definition respond (self : GeminiClient) (user_text intent : string)
    (intent_conf : Q) (entities : option (list (string * list string)))
    (sentiment : option (gmap string PyVal)) (context_summary : string)
  : GeminiClient * string * list Effect :=
  let enriched :=
    _build_enriched_prompt user_text intent intent_conf
      (default [] entities) (default ∅ sentiment) context_summary in
  let '(chat', reply, log) :=
    respond_attempts (seq 1 MAX_RETRIES) (_chat self) enriched intent sentiment in
  ({| model := model self; _chat := chat' |}, reply, log).

Definition reset_chat (self : GeminiClient) : GeminiClient :=
  {| model := model self; _chat := start_chat (model self) seed_history |}.
End GeminiClient.

(* ================================================================== *)
(** * analytics_store.py *)
(* ================================================================== *)

(** One entry of [AnalyticsStore.records]. *)
Record AnalyticsRecord : Type := {
  rec_timestamp : Q;
  rec_user_text : string;
  rec_bot_text : string;
  rec_intent : string;
  rec_intent_conf : Q;
  rec_entities : list (string * list string);
  rec_sentiment_polarity : PyVal;
  rec_sentiment_conf : PyVal;
  rec_emotion : PyVal;
  rec_emotion_conf : PyVal;
  rec_response_time_ms : Q
}.

(** [AnalyticsStore.record]; [_save] swallows every error of the file
    system, so only the list in memory is observed. *)
Definition analytics_record (now : Q) (user_text bot_text intent : string)
    (intent_conf : Q) (entities : list (string * list string))
    (sentiment : gmap string PyVal) (response_time_ms : Q)
    (records : list AnalyticsRecord) : list AnalyticsRecord :=
  records ++
  [ {| rec_timestamp := now;
       rec_user_text := user_text;
       rec_bot_text := bot_text;
       rec_intent := intent;
       rec_intent_conf := intent_conf;
       rec_entities := entities;
       rec_sentiment_polarity := default (PStr "neutral") (sentiment !! "polarity");
       rec_sentiment_conf := default (PFloat 0.5%Q) (sentiment !! "polarity_conf");
       rec_emotion := default (PStr "neutral") (sentiment !! "emotion");
       rec_emotion_conf := default (PFloat 0.5%Q) (sentiment !! "emotion_conf");
       rec_response_time_ms := py_round 1 response_time_ms |} ].

(** [total_interactions] and [entity_summary], the aggregates computed
    from the records alone. [r.get("entities") or {}] is the mapping of the
    record: the keys are visited in the order of insertion. *)
Definition total_interactions (records : list AnalyticsRecord) : nat :=
  length records.

Definition entity_summary (records : list AnalyticsRecord) : list (string * nat) :=
  fold_left
    (fun counts r =>
       fold_left
         (fun counts etype =>
            dict_set etype (default 0%nat (dict_get etype counts) + 1)%nat counts)
         (dict_keys (rec_entities r)) counts)
    records [].

(* ================================================================== *)
(** * chatbot_core.py *)
(* ================================================================== *)

(** The outcome of a statement that may raise. *)
Inductive Result (A : Type) : Type :=
  | Ok (a : A)
  | Raise.
Arguments Ok {A} a.
Arguments Raise {A}.

#[export] Instance result_bind : MBind Result := fun A B k r =>
  match r with
  | Ok a => k a
  | Raise => Raise
  end.

(** [try: body / except Exception: handler] *)
Definition try_except {A} (body : Result A) (handler : A) : Result A :=
  match body with
  | Ok a => Ok a
  | Raise => Ok handler
  end.

Definition of_option {A} (o : option A) : Result A :=
  match o with
  | Some a => Ok a
  | None => Raise
  end.

(** The client the orchestrator builds on first use and then asks for the
    reply: its constructor and its [respond] may raise. *)
Class Gateway : Type := {
  Client : Type;
  new_client : option Client;
  client_respond :
    Client -> string -> string -> Q -> list (string * list string) ->
    gmap string PyVal -> string -> Client * option string;
  client_reset : Client -> Client
}.

(** [GeminiClient] as the gateway: its [respond] returns in every case. *)
#[export] Instance GeminiGateway `{GenAI} `{Environ} `{PyFormat} : Gateway := {
  Client := GeminiClient;
  new_client := GeminiClient_init;
  client_respond self user_text intent intent_conf entities sentiment ctx :=
    let '(self', reply, _) :=
      respond self user_text intent intent_conf (Some entities) (Some sentiment) ctx in
    (self', Some reply);
  client_reset := reset_chat
}.

Record ChatResponse : Type := {
  text : string;
  intent : string;
  intent_conf : Q;
  multi_intents : list (string * Q);
  entities : list (string * list string);
  sentiment : gmap string PyVal;
  source : string;
  response_time_ms : Q;
  context_summary : string
}.

(** The readings of the clocks during one turn: [time.perf_counter()] at
    both ends, and [time.time()] for the two turns and the analytics record. *)
Record TurnClock : Type := {
  perf_start : Q;
  time_user_turn : Q;
  time_bot_turn : Q;
  perf_end : Q;
  time_record : Q
}.

Definition _emergency_fallback (intent : string) (sentiment : gmap string PyVal)
  : string :=
  let prefix :=
    if is_str "negative" (sentiment !! "polarity")
    then "I hear you – sorry you're going through that. " else "" in
  let mapping : gmap string string :=
    list_to_map
      [ ("greeting", "Hey! 👋 I'm DynamiChat. How can I help?");
        ("farewell", "Goodbye! 👋 See you next time!");
        ("thanks", "You're welcome! 😊");
        ("help", "I can answer questions, detect sentiment, extract entities and more. Try asking me something!");
        ("joke", "Why did the scarecrow win an award? He was outstanding in his field! 🌾😄") ] in
  prefix +:+
  default "I'm here to help! Could you rephrase that for me? 😊" (mapping !! intent).

Section ChatbotCore.
Context `{RegexEngine} `{Vectoriser} `{Pipelines} `{SetOrder} `{PyFormat}
        `{Gateway}.

Record ChatbotCore : Type := {
  memory : ContextMemory;
  analytics : list AnalyticsRecord;
  _gemini : option Client
}.

Definition ChatbotCore_init (records : list AnalyticsRecord) : ChatbotCore :=
  {| memory := ContextMemory_init 20; analytics := records; _gemini := None |}.

(** [_get_gemini]: the client, built on first use. *)
Definition _get_gemini (self : ChatbotCore) : Result (ChatbotCore * Client) :=
  match _gemini self with
  | Some g => Ok (self, g)
  | None =>
      g ← of_option new_client;
      Ok ({| memory := memory self; analytics := analytics self;
             _gemini := Some g |}, g)
  end.

(** Step 5 of [process_message], the body of the [try]: the core with the
    client as the call leaves it, and the reply. A client whose constructor
    raised is not stored; a client whose [respond] raised keeps the state
    the call left. *)
Definition ask_gemini (self : ChatbotCore) (user_text intent : string)
    (intent_conf : Q) (entities : list (string * list string))
    (sentiment : gmap string PyVal) (ctx_summary : string)
  : ChatbotCore * Result string :=
  match _get_gemini self with
  | Raise => (self, Raise)
  | Ok (self1, gemini) =>
      let '(gemini', reply) :=
        client_respond gemini user_text intent intent_conf entities
          sentiment ctx_summary in
      ({| memory := memory self1; analytics := analytics self1;
          _gemini := Some gemini' |}, of_option reply)
  end.

Definition process_message (clock : TurnClock) (user_text : string)
    (self : ChatbotCore) : Result (ChatbotCore * ChatResponse) :=
  (* 1. NLP *)
  let '(intent, intent_conf) := predict user_text in
  let multi_intents := predict_multi user_text 3 in
  let entities := extract user_text in
  (* 2. Sentiment *)
  let sentiment := analyse user_text in
  (* 3. Memory *)
  let memory1 :=
    add_turn (time_user_turn clock) "user" user_text (Some intent)
      (Some entities) (memory self) in
  let ctx_summary := get_summary memory1 in
  let self1 :=
    {| memory := memory1; analytics := analytics self;
       _gemini := _gemini self |} in
  (* 5. Gemini *)
  let '(self2, answer) :=
    ask_gemini self1 user_text intent intent_conf entities sentiment
      ctx_summary in
  '(bot_text, source) ←
    try_except (bot_text ← answer; Ok (bot_text, "gemini"))
               (_emergency_fallback intent sentiment, "fallback");
  (* 6. Memory (bot turn) *)
  let memory2 :=
    add_turn (time_bot_turn clock) "model" bot_text None None (memory self2) in
  (* 7. Analytics *)
  let elapsed_ms := ((perf_end clock - perf_start clock) * 1000)%Q in
  let analytics2 :=
    analytics_record (time_record clock) user_text bot_text intent intent_conf
      entities sentiment elapsed_ms (analytics self2) in
  Ok ({| memory := memory2; analytics := analytics2; _gemini := _gemini self2 |},
      {| text := bot_text;
         intent := intent;
         intent_conf := intent_conf;
         multi_intents := multi_intents;
         entities := entities;
         sentiment := sentiment;
         source := source;
         response_time_ms := py_round 1 elapsed_ms;
         context_summary := ctx_summary |}).

Definition clear_conversation (self : ChatbotCore) : ChatbotCore :=
  {| memory := clear (memory self);
     analytics := analytics self;
     _gemini := client_reset <$> _gemini self |}.
End ChatbotCore.

(* ================================================================== *)
(** * app.py *)
(* ================================================================== *)

(** [s.replace(old, new)] for an [old] of one character. *)
Fixpoint replace_char (old : ascii) (new : string) (s : string) : string :=
  match s with
  | EmptyString => ""
  | String c r =>
      if Ascii.eqb c old then new +:+ replace_char old new r
      else String c (replace_char old new r)
  end.

Definition _escape (text : string) : string :=
  replace_char "010"%char "<br>"
    (replace_char ">"%char "&gt;"
       (replace_char "<"%char "&lt;"
          (replace_char "&"%char "&amp;" text))).

Section AppSession.
Context `{RegexEngine} `{Vectoriser} `{Pipelines} `{SetOrder} `{PyFormat}
        `{Gateway}.

(** An entry of [st.session_state["messages"]]; the entries of the user
    have no ["response"]. *)
Record Message : Type := {
  msg_role : string;
  msg_text : string;
  msg_response : option ChatResponse
}.

(** The keys of [st.session_state] that [_process_input] reads and writes. *)
Record Session : Type := {
  core : ChatbotCore;
  messages : list Message;
  last_response : option ChatResponse
}.

(** [_process_input]; the spinner shows and hides, nothing else. Were
    [process_message] to raise, the message of the user would stay in the
    list: [process_message] returns in every case. The argument [text] of
    the source is [user_text] here. *)
Definition _process_input (clock : TurnClock) (user_text : string) (st : Session)
  : Result Session :=
  if String.eqb user_text "" || String.eqb (strip user_text) "" then Ok st
  else
    let messages1 :=
      messages st ++
      [ {| msg_role := "user"; msg_text := user_text; msg_response := None |} ] in
    '(core', response) ← process_message clock user_text (core st);
    Ok {| core := core';
          messages :=
            messages1 ++
            [ {| msg_role := "bot"; msg_text := text response;
                 msg_response := Some response |} ];
          last_response := Some response |}.
End AppSession.

(* ================================================================== *)
(** * Definitions used to state the properties *)
(* ================================================================== *)

(** The keys of a dictionary after one more key is set. *)
Definition add_key (ks : list string) (k : string) : list string :=
  if decide (k ∈ ks) then ks else ks ++ [k].

(** Each member once, in the order of the first occurrences. *)
Fixpoint nub (l : list string) : list string :=
  match l with
  | [] => []
  | x :: r => x :: filter (fun y => y <> x) (nub r)
  end.

(** The position of the first occurrence of [x] in [l]. *)
Fixpoint first_index (x : string) (l : list string) : nat :=
  match l with
  | [] => 0
  | y :: r => if String.eqb y x then 0 else S (first_index x r)
  end.

(** The only entry labelled ["general"] has no pattern. *)
Definition general_is_empty (cat : list (string * list string)) : Prop :=
  forall pats, In ("general", pats) cat -> pats = [].

(** [seen] holds, for each label of [hits], its highest confidence. *)
Definition merged (hits seen : list (string * Q)) : Prop :=
  NoDup (dict_keys seen) /\
  (forall l c, dict_get l seen = Some c ->
     In (l, c) hits /\ forall c', In (l, c') hits -> (c' <= c)%Q) /\
  (forall l c, In (l, c) hits -> dict_get l seen <> None).

Section ExtractStep.
Context {re : RegexEngine}.

(** One round of the loop of [extract]. *)
Definition extract_step (text : string) (entities : list (string * list string))
    (entry : string * string) : list (string * list string) :=
  let '(label, pattern) := entry in
  match re_findall pattern text with
  | [] => entities
  | _ => dict_set label (fromkeys (re_findall pattern text)) entities
  end.
End ExtractStep.

(** One call of [add_turn], with the reading of the clock. *)
Record AddTurn : Type := {
  call_now : Q;
  call_role : string;
  call_text : string;
  call_intent : option string;
  call_entities : option (list (string * list string))
}.

Definition apply_call (m : ContextMemory) (c : AddTurn) : ContextMemory :=
  add_turn (call_now c) (call_role c) (call_text c) (call_intent c)
    (call_entities c) m.

Definition run_calls (calls : list AddTurn) (m : ContextMemory) : ContextMemory :=
  fold_left apply_call calls m.

(** The turn a call stores. *)
Definition turn_of (c : AddTurn) : Turn :=
  {| turn_role := call_role c; turn_text := call_text c;
     turn_intent := call_intent c;
     turn_entities := default [] (call_entities c);
     turn_timestamp := call_now c |}.

(** The intents the calls add to the topic trail. *)
Definition trail_of (calls : list AddTurn) : list string :=
  flat_map
    (fun c =>
       match call_intent c with
       | Some i =>
           if negb (String.eqb i "") && String.eqb (call_role c) "user"
           then [i] else []
       | None => []
       end)
    calls.

(** The entity types of the calls, in the order they come. *)
Definition types_of (calls : list AddTurn) : list string :=
  flat_map (fun c => map fst (default [] (call_entities c))) calls.

(** The sentiment passed to the fallback says negative. *)
Definition says_negative (sentiment : option (gmap string PyVal)) : bool :=
  match sentiment with
  | Some s => is_str "negative" (s !! "polarity")
  | None => false
  end.

Section GatewayAnswer.
Context {gateway : Gateway}.

(** What the [try] block of [process_message] comes to: the reply of the
    client held by the core, or of a client built now; [Raise] when the
    constructor or [respond] raises. *)
Definition gateway_answer (held : option Client) (user_text intent : string)
    (intent_conf : Q) (entities : list (string * list string))
    (sentiment : gmap string PyVal) (ctx_summary : string) : Result string :=
  match held with
  | Some c =>
      of_option (snd (client_respond c user_text intent intent_conf entities
                        sentiment ctx_summary))
  | None =>
      match new_client with
      | Some c =>
          of_option (snd (client_respond c user_text intent intent_conf entities
                            sentiment ctx_summary))
      | None => Raise
      end
  end.
End GatewayAnswer.

(** The values a mapping of entities gives for the type [k]. *)
Definition values_in (k : string) (ents : list (string * list string)) : list string :=
  flat_map (fun kv => if String.eqb (fst kv) k then snd kv else []) ents.

(** The values the calls give for the type [k], in the order they come. *)
Definition values_of (k : string) (calls : list AddTurn) : list string :=
  flat_map (fun c => values_in k (default [] (call_entities c))) calls.

(** The seconds slept during a call of [respond]. *)
Fixpoint total_sleep (log : list Effect) : Q :=
  match log with
  | [] => 0
  | Sleep s :: r => s + total_sleep r
  | _ :: r => total_sleep r
  end.

(** A text with no white space at either end. *)
Definition trimmed (s : string) : Prop :=
  match list_ascii_of_string s with [] => True | c :: _ => is_space c = false end /\
  match rev (list_ascii_of_string s) with [] => True | c :: _ => is_space c = false end.

(** A line: no line break in it. *)
Definition no_linebreak (s : string) : Prop :=
  Forall (fun c => is_linebreak c = false) (list_ascii_of_string s).

(** What one character becomes in a chat bubble. *)
Definition escape_char (c : ascii) : string :=
  if Ascii.eqb c "&"%char then "&amp;"
  else if Ascii.eqb c "<"%char then "&lt;"
  else if Ascii.eqb c ">"%char then "&gt;"
  else if Ascii.eqb c "010"%char then "<br>"
  else String c "".

Fixpoint escaped (s : string) : string :=
  match s with
  | EmptyString => ""
  | String c r => escape_char c +:+ escaped r
  end.

(** Reading an escaped text back. *)
Fixpoint unescape (s : string) : string :=
  match s with
  | EmptyString => ""
  | String c r =>
      if Ascii.eqb c "&"%char then
        match r with
        | String "a" (String "m" (String "p" (String ";" r'))) =>
            String "&" (unescape r')
        | String "l" (String "t" (String ";" r')) => String "<" (unescape r')
        | String "g" (String "t" (String ";" r')) => String ">" (unescape r')
        | _ => String c (unescape r)
        end
      else if Ascii.eqb c "<"%char then
        match r with
        | String "b" (String "r" (String ">" r')) => String "010" (unescape r')
        | _ => String c (unescape r)
        end
      else String c (unescape r)
  end.

(** The records in which an entity type was detected. *)
Definition detected_in (etype : string) (records : list AnalyticsRecord)
  : list AnalyticsRecord :=
  List.filter (fun r => bool_decide (etype ∈ dict_keys (rec_entities r))) records.

Section Inputs.
Context `{RegexEngine} `{Vectoriser} `{Pipelines} `{SetOrder} `{PyFormat}
        `{Gateway}.

(** The inputs of a session, one after the other, each with the readings
    of the clocks during its turn. *)
Fixpoint run_inputs (inputs : list (TurnClock * string)) (st : Session)
  : Result Session :=
  match inputs with
  | [] => Ok st
  | (clock, text) :: rest =>
      st1 ← _process_input clock text st;
      run_inputs rest st1
  end.
End Inputs.

(** The inputs that are not blank. *)
Definition accepted (inputs : list (TurnClock * string)) : list string :=
  List.filter (fun text => negb (String.eqb text "" || String.eqb (strip text) ""))
    (map snd inputs).

(* ================================================================== *)
(** * Implementations of the interfaces, to run the program *)
(* ================================================================== *)

(** A matcher that knows the one-word alternatives of the intent patterns:
    a pattern is found when a word of the text, in lower case, is one of
    them. For [findall], the words holding an [@] stand for the e-mail
    addresses. *)
Definition keywords : list (string * list string) :=
  [ ("greeting", ["hi"; "hello"; "hey"; "howdy"; "sup"; "yo"]);
    ("farewell", ["bye"; "goodbye"; "later"; "quit"; "exit"]);
    ("thanks", ["thanks"; "thankyou"; "appreciate"; "grateful"; "cheers"]);
    ("help", ["help"; "assist"; "support"; "usage"; "guide"]);
    ("weather", ["weather"; "temperature"; "forecast"; "rain"; "sunny"; "cloudy"; "wind"]);
    ("time_date", ["time"; "date"; "day"; "today"; "tomorrow"; "yesterday"; "clock"]);
    ("joke", ["joke"; "funny"; "laugh"; "humor"; "amuse"; "entertain"]);
    ("sentiment_query", ["feel"; "feeling"; "mood"; "emotion"; "sentiment"]);
    ("name_identity", []);
    ("capability", ["features"; "abilities"; "skills"; "trained"; "capable"]) ].

Definition has_substring (needle hay : string) : bool :=
  match String.index 0 needle hay with Some _ => true | None => false end.

Definition keyword_search (pat text : string) : bool :=
  existsb
    (fun '(label, pats) =>
       existsb (String.eqb pat) pats &&
       existsb (fun w => existsb (String.eqb w) (default [] (dict_get label keywords)))
               (split (lower text)))
    INTENT_PATTERNS.

Definition keyword_engine : RegexEngine :=
  {| re_search_ignorecase := keyword_search;
     re_findall pat text :=
       if has_substring "@" pat
       then List.filter (has_substring "@") (split text) else [] |}.

(** A vectoriser that reports the similarities listed in [table] (and 0 for
    the other documents), whatever the text. *)
Definition table_vectoriser (table : list (string * Q)) : Vectoriser :=
  {| transform_raises _ _ := false;
     cosine_to _ _ doc := default 0%Q (dict_get doc table) |}.

(** A vectoriser whose [transform] raises. *)
Definition failing_vectoriser : Vectoriser :=
  {| transform_raises _ _ := true; cosine_to _ _ _ := 0%Q |}.

(** A formatter for the examples: integers in decimal, a list as its items
    between brackets. *)
Definition plain_format : PyFormat :=
  {| str_of_float q :=
       pretty (Qnum q) +:+ "/" +:+ pretty (Zpos (Qden q));
     repr_str_list l := "[" +:+ String.concat ", " l +:+ "]";
     repr_entities d :=
       "{" +:+ String.concat ", "
                 (map (fun '(k, v) => k +:+ ": [" +:+ String.concat ", " v +:+ "]") d)
       +:+ "}" |}.

(** Pipelines that give every text the same probabilities: [neutral] with
    0.5 among the polarities, [anger] with 0.9 among the emotions. *)
Definition constant_pipelines : Pipelines :=
  {| sentiment_proba _ cls := if String.eqb cls "neutral" then 0.5%Q else 0.25%Q;
     emotion_proba _ cls := if String.eqb cls "anger" then 0.9%Q else 0.02%Q |}.

(** A backend that follows a script: the n-th message sent in a session
    gets the n-th outcome, and raises once the script is over. *)
Definition scripted_backend (script : list (option string)) : GenAI :=
  {| Model := unit;
     ChatSession := nat;
     generative_model _ _ := Some tt;
     start_chat _ _ := 0%nat;
     send_message n _ := (S n, nth n script None) |}.

(** A client on a scripted backend, freshly seeded. *)
Definition scripted_client (script : list (option string))
  : @GeminiClient (scripted_backend script) :=
  @Build_GeminiClient (scripted_backend script) tt 0%nat.

(** A session in which the first message raises and the second is answered. *)
Definition flaky_script : list (option string) :=
  [None; Some ("  Hi there!  " +:+ String "010"%char " How can I help? ")].

Definition empty_environ : Environ := {| getenv _ := None |}.

(** A gateway whose client cannot be built. *)
Definition unbuildable_gateway : Gateway :=
  {| Client := unit;
     new_client := None;
     client_respond c _ _ _ _ _ _ := (c, None);
     client_reset c := c |}.

(** Pipelines that find every text positive with 0.8 and joyful with 0.7. *)
Definition cheerful_pipelines : Pipelines :=
  {| sentiment_proba _ cls := if String.eqb cls "positive" then 0.8%Q else 0.1%Q;
     emotion_proba _ cls := if String.eqb cls "joy" then 0.7%Q else 0.06%Q |}.

(** The readings of the clocks of a turn that took a quarter of a second. *)
Definition sample_clock : TurnClock :=
  {| perf_start := 0; time_user_turn := 1; time_bot_turn := 2;
     perf_end := 0.25; time_record := 3 |}.

(** Two records, the first with an e-mail address and a date, the second
    with an e-mail address. *)
Definition sample_records : list AnalyticsRecord :=
  analytics_record 2 "mail me" "ok" "general" 0.5%Q
    [("EMAIL", ["c@d.org"])] ∅ 12
    (analytics_record 1 "write to a@b.com on 1/2/2024" "ok" "general" 0.5%Q
       [("EMAIL", ["a@b.com"]); ("DATE", ["1/2/2024"])] ∅ 10 []).

(* ================================================================== *)
(** * Facts about the builtins *)
(* ================================================================== *)

Lemma Qltb_lt x y : Qltb x y = true <-> (x < y)%Q.
Proof.
  unfold Qltb. rewrite negb_true_iff. split.
  - intros Hb. apply Qnot_le_lt. intros Hle. apply Qle_bool_iff in Hle. congruence.
  - intros Hlt. destruct (Qle_bool y x) eqn:E; [|reflexivity].
    apply Qle_bool_iff in E. exfalso. apply (Qlt_not_le _ _ Hlt E).
Qed.

Lemma Qltb_ge x y : Qltb x y = false <-> (y <= x)%Q.
Proof.
  unfold Qltb. rewrite negb_false_iff. apply Qle_bool_iff.
Qed.

Lemma round_half_even_cases x :
  let f := Qfloor x in
  (round_half_even x = f /\ (x - inject_Z f <= 1 # 2)%Q) \/
  (round_half_even x = (f + 1)%Z /\ (1 # 2 <= x - inject_Z f)%Q).
Proof.
  cbv zeta. unfold round_half_even.
  destruct (Qltb (x - inject_Z (Qfloor x)) (1 # 2)) eqn:E1.
  - left. split; [reflexivity|]. apply Qltb_lt in E1. lra.
  - apply Qltb_ge in E1.
    destruct (Qltb (1 # 2) (x - inject_Z (Qfloor x))) eqn:E2.
    + right. split; [reflexivity|]. exact E1.
    + apply Qltb_ge in E2. destruct (Z.even (Qfloor x)); [left|right]; split; auto.
Qed.

Lemma inject_Z_succ z : (inject_Z (z + 1) == inject_Z z + 1)%Q.
Proof. rewrite inject_Z_plus. reflexivity. Qed.

Lemma round_half_even_near x :
  (x - (1 # 2) <= inject_Z (round_half_even x) <= x + (1 # 2))%Q.
Proof.
  pose proof (Qfloor_le x) as Hlo. pose proof (Qlt_floor x) as Hhi.
  rewrite inject_Z_succ in Hhi.
  destruct (round_half_even_cases x) as [[-> Hr]|[-> Hr]].
  - split; lra.
  - rewrite inject_Z_succ. split; lra.
Qed.

Lemma round_half_even_mono x y :
  (x <= y)%Q -> (round_half_even x <= round_half_even y)%Z.
Proof.
  intros Hxy.
  destruct (Qeq_dec x y) as [Heq|Hne].
  - assert (round_half_even x = round_half_even y) as ->; [|lia].
    unfold round_half_even. rewrite (Qfloor_comp _ _ Heq).
    assert (Hr : (x - inject_Z (Qfloor y) == y - inject_Z (Qfloor y))%Q) by (rewrite Heq; reflexivity).
    unfold Qltb. rewrite !(Qleb_comp _ _ (Qeq_refl (1#2)) _ _ Hr).
    rewrite !(Qleb_comp _ _ Hr _ _ (Qeq_refl (1#2))). reflexivity.
  - assert (Hlt : (x < y)%Q) by (apply Qle_lteq in Hxy; destruct Hxy; [assumption|contradiction]).
    pose proof (Qfloor_resp_le _ _ Hxy) as Hf.
    pose proof (Qfloor_le x) as Hxlo. pose proof (Qlt_floor x) as Hxhi.
    pose proof (Qfloor_le y) as Hylo. pose proof (Qlt_floor y) as Hyhi.
    rewrite inject_Z_succ in Hxhi, Hyhi.
    destruct (Z.eq_dec (Qfloor x) (Qfloor y)) as [Hfe|Hfne].
    + (* same floor: the fractional parts are ordered strictly *)
      unfold round_half_even. rewrite <- Hfe.
      destruct (Qltb (x - inject_Z (Qfloor x)) (1 # 2)) eqn:Ex1.
      * destruct (Qltb (y - inject_Z (Qfloor x)) (1 # 2)); [lia|].
        destruct (Qltb (1 # 2) (y - inject_Z (Qfloor x))); [lia|].
        destruct (Z.even (Qfloor x)); lia.
      * apply Qltb_ge in Ex1.
        assert (Ey1 : Qltb (y - inject_Z (Qfloor x)) (1 # 2) = false) by (apply Qltb_ge; lra).
        assert (Ey2 : Qltb (1 # 2) (y - inject_Z (Qfloor x)) = true) by (apply Qltb_lt; lra).
        rewrite Ey1, Ey2.
        destruct (Qltb (1 # 2) (x - inject_Z (Qfloor x))); [lia|].
        destruct (Z.even (Qfloor x)); lia.
    + assert (Qfloor x + 1 <= Qfloor y)%Z by lia.
      destruct (round_half_even_cases x) as [[-> _]|[-> _]];
        destruct (round_half_even_cases y) as [[-> _]|[-> _]]; lia.
Qed.

Lemma round_half_even_Z z : round_half_even (inject_Z z) = z.
Proof.
  unfold round_half_even. rewrite Qfloor_Z.
  assert (E : Qltb (inject_Z z - inject_Z z) (1 # 2) = true) by (apply Qltb_lt; lra).
  rewrite E. reflexivity.
Qed.

Lemma round_half_even_comp x y : (x == y)%Q -> round_half_even x = round_half_even y.
Proof.
  intros Heq. apply Z.le_antisymm; apply round_half_even_mono; rewrite Heq; apply Qle_refl.
Qed.

Lemma Qmake_le_same (a b : Z) (p : positive) : (a <= b)%Z -> (a # p <= b # p)%Q.
Proof. intros Hab. unfold Qle. simpl. nia. Qed.

Lemma Qmake_scaled (a : Z) (p : positive) : ((a # p) * inject_Z (Zpos p) == inject_Z a)%Q.
Proof. unfold Qeq, Qmult, inject_Z. simpl. lia. Qed.

Lemma Qmake_as_div (a : Z) (p : positive) : (a # p == inject_Z a / inject_Z (Zpos p))%Q.
Proof. rewrite Qmake_Qdiv. reflexivity. Qed.

Lemma py_round_mono n x y : (x <= y)%Q -> (py_round n x <= py_round n y)%Q.
Proof.
  intros Hxy. unfold py_round. apply Qmake_le_same, round_half_even_mono.
  apply Qmult_le_compat_r; [exact Hxy|]. unfold Qle. simpl. lia.
Qed.

Lemma py_round_fixed n (z : Z) : py_round n (z # pow10 n) = (z # pow10 n).
Proof.
  unfold py_round. f_equal.
  rewrite (round_half_even_comp _ _ (Qmake_scaled z (pow10 n))).
  apply round_half_even_Z.
Qed.

Lemma py_round_idem n x : py_round n (py_round n x) = py_round n x.
Proof. unfold py_round at 2 3. apply py_round_fixed. Qed.

Lemma py_round_near n x :
  (x - (1 # (2 * pow10 n)) <= py_round n x <= x + (1 # (2 * pow10 n)))%Q.
Proof.
  unfold py_round.
  set (p := pow10 n). set (r := round_half_even (x * inject_Z (Zpos p))).
  pose proof (round_half_even_near (x * inject_Z (Zpos p))) as [Hlo Hhi]. fold r in Hlo, Hhi.
  assert (Hp : (0 < inject_Z (Zpos p))%Q) by (unfold Qlt; simpl; lia).
  assert (Hr : (r # p == inject_Z r / inject_Z (Zpos p))%Q) by apply Qmake_as_div.
  assert (Hh : (1 # (2 * p) == (1 # 2) / inject_Z (Zpos p))%Q).
  { unfold Qeq, Qdiv, Qmult, Qinv, inject_Z. simpl. lia. }
  rewrite Hr, Hh. split.
  - apply Qle_shift_div_l; [exact Hp|].
    assert (E : ((x - (1 # 2) / inject_Z (Zpos p)) * inject_Z (Zpos p)
                 == x * inject_Z (Zpos p) - (1 # 2))%Q).
    { field. intros Hz. rewrite Hz in Hp. apply (Qlt_irrefl _ Hp). }
    rewrite E. exact Hlo.
  - apply Qle_shift_div_r; [exact Hp|].
    assert (E : ((x + (1 # 2) / inject_Z (Zpos p)) * inject_Z (Zpos p)
                 == x * inject_Z (Zpos p) + (1 # 2))%Q).
    { field. intros Hz. rewrite Hz in Hp. apply (Qlt_irrefl _ Hp). }
    rewrite E. exact Hhi.
Qed.

Lemma py_max_ge_l a b : (a <= py_max a b)%Q.
Proof.
  unfold py_max. destruct (Qltb a b) eqn:E; [|apply Qle_refl].
  apply Qltb_lt in E. apply Qlt_le_weak, E.
Qed.

Lemma py_max_ge_r a b : (b <= py_max a b)%Q.
Proof.
  unfold py_max. destruct (Qltb a b) eqn:E; [apply Qle_refl|].
  apply Qltb_ge in E. exact E.
Qed.

(** ** argmax *)

Lemma argmax_from_spec (pre l : list Q) (bi : nat) (b : Q) :
  (bi < length pre)%nat ->
  nth bi (pre ++ l) 0%Q = b ->
  (forall x, In x pre -> (x <= b)%Q) ->
  let r := argmax_from (length pre) bi b l in
  (r < length (pre ++ l))%nat /\
  forall x, In x (pre ++ l) -> (x <= nth r (pre ++ l) 0)%Q.
Proof.
  revert pre bi b. induction l as [|y l IH]; intros pre bi b Hbi Hnth Hmax; cbn [argmax_from].
  - rewrite app_nil_r in *. split; [exact Hbi|]. intros x Hx. rewrite Hnth. auto.
  - assert (Hpre : pre ++ y :: l = (pre ++ [y]) ++ l) by (rewrite <- app_assoc; reflexivity).
    assert (Hlen : length (pre ++ [y]) = S (length pre)) by (rewrite length_app; simpl; lia).
    destruct (Qltb b y) eqn:E.
    + apply Qltb_lt in E. rewrite Hpre, <- Hlen. apply IH.
      * rewrite Hlen. lia.
      * rewrite <- Hpre. rewrite app_nth2 by lia. replace (length pre - length pre)%nat with 0%nat by lia. reflexivity.
      * intros x Hx. apply in_app_or in Hx as [Hx|[<-|[]]]; [|apply Qle_refl].
        apply Qle_trans with b; [auto|apply Qlt_le_weak, E].
    + apply Qltb_ge in E. rewrite Hpre, <- Hlen. apply IH.
      * rewrite Hlen. lia.
      * rewrite <- Hpre. exact Hnth.
      * intros x Hx. apply in_app_or in Hx as [Hx|[<-|[]]]; auto.
Qed.

Lemma argmax_spec (l : list Q) :
  l <> [] ->
  (argmax l < length l)%nat /\ forall x, In x l -> (x <= nth (argmax l) l 0)%Q.
Proof.
  destruct l as [|x l]; [congruence|]. intros _.
  apply (argmax_from_spec [x] l 0 x); simpl; [lia|reflexivity|].
  intros y [<-|[]]. apply Qle_refl.
Qed.

(** ** lists *)

Lemma filter_all {A} (P : A -> Prop) `{forall x, Decision (P x)} (l : list A) :
  (forall x, x ∈ l -> P x) -> filter P l = l.
Proof.
  induction l as [|x l IH]; intros Hall; [reflexivity|].
  rewrite filter_cons_True by (apply Hall; left).
  f_equal. apply IH. intros y Hy. apply Hall. right. exact Hy.
Qed.

Lemma StronglySorted_sublist {A} (R : A -> A -> Prop) (l k : list A) :
  l `sublist_of` k -> StronglySorted R k -> StronglySorted R l.
Proof.
  induction 1 as [|x l k Hsub IH|x l k Hsub IH]; intros Hk.
  - constructor.
  - apply StronglySorted_inv in Hk as [Hk Hall]. constructor; [auto|].
    rewrite Forall_forall in Hall |- *. intros y Hy. apply Hall.
    apply (elem_of_sublist _ _ _ Hy Hsub).
  - apply StronglySorted_inv in Hk as [Hk _]. auto.
Qed.

(** ** dictionaries *)

Lemma add_key_NoDup ks k : NoDup ks -> NoDup (add_key ks k).
Proof.
  intros Hnd. unfold add_key. destruct (decide (k ∈ ks)) as [Hin|Hn]; [exact Hnd|].
  apply NoDup_app. split; [exact Hnd|]. split; [|apply NoDup_singleton].
  intros x Hx Hx'. apply list_elem_of_singleton in Hx'. subst. contradiction.
Qed.

Section DictFacts.
Context {V : Type}.
Implicit Types (d : list (string * V)) (k : string) (v : V).

Lemma dict_get_None k d : dict_get k d = None <-> ~ In k (dict_keys d).
Proof.
  induction d as [|[k' v'] d IH]; simpl; [tauto|].
  destruct (String.eqb_spec k k') as [->|Hne]; [split; [discriminate|tauto]|].
  rewrite IH. split; [intros Hn [Heq|Hin]; [congruence|tauto]|tauto].
Qed.

Lemma dict_get_In k v d : dict_get k d = Some v -> In (k, v) d.
Proof.
  induction d as [|[k' v'] d IH]; simpl; [discriminate|].
  destruct (String.eqb_spec k k') as [->|Hne]; [intros [= ->]; auto|auto].
Qed.

Lemma dict_In_get k v d : NoDup (dict_keys d) -> In (k, v) d -> dict_get k d = Some v.
Proof.
  induction d as [|[k' v'] d IH]; simpl; [tauto|].
  intros Hnd [Heq|Hin].
  - inversion Heq; subst. rewrite String.eqb_refl. reflexivity.
  - apply NoDup_cons in Hnd as [Hnotin Hnd].
    destruct (String.eqb_spec k k') as [->|Hne]; [|auto].
    exfalso. apply Hnotin, list_elem_of_In. apply (in_map fst) in Hin. exact Hin.
Qed.

Lemma dict_keys_set_absent k v d :
  ~ In k (dict_keys d) -> dict_keys (dict_set k v d) = dict_keys d ++ [k].
Proof.
  induction d as [|[k' v'] d IH]; simpl; [reflexivity|]. intros Hn.
  destruct (String.eqb_spec k k') as [->|Hne]; [tauto|].
  simpl. f_equal. apply IH. tauto.
Qed.

Lemma dict_keys_set_present k v d :
  In k (dict_keys d) -> dict_keys (dict_set k v d) = dict_keys d.
Proof.
  induction d as [|[k' v'] d IH]; simpl; [tauto|]. intros Hin.
  destruct (String.eqb_spec k k') as [->|Hne]; [reflexivity|].
  simpl. f_equal. apply IH. destruct Hin; [congruence|assumption].
Qed.

Lemma dict_set_In k v d k' v' :
  In (k', v') (dict_set k v d) -> (k' = k /\ v' = v) \/ In (k', v') d.
Proof.
  induction d as [|[k0 v0] d IH]; simpl.
  - intros [[= <- <-]|[]]. auto.
  - destruct (String.eqb_spec k k0) as [->|Hne]; simpl.
    + intros [[= <- <-]|Hin]; auto.
    + intros [Heq|Hin]; [auto|]. destruct (IH Hin); auto.
Qed.

Lemma dict_get_set_eq k v d : dict_get k (dict_set k v d) = Some v.
Proof.
  induction d as [|[k0 v0] d IH]; simpl.
  - rewrite String.eqb_refl. reflexivity.
  - destruct (String.eqb_spec k k0) as [->|Hne]; simpl.
    + rewrite String.eqb_refl. reflexivity.
    + destruct (String.eqb_spec k k0); [contradiction|exact IH].
Qed.

Lemma dict_get_set_ne k k' v d : k <> k' -> dict_get k' (dict_set k v d) = dict_get k' d.
Proof.
  intros Hne. induction d as [|[k0 v0] d IH]; simpl.
  - destruct (String.eqb_spec k' k); [congruence|reflexivity].
  - destruct (String.eqb_spec k k0) as [->|Hne0]; simpl.
    + destruct (String.eqb_spec k' k0); [congruence|reflexivity].
    + destruct (String.eqb_spec k' k0); [reflexivity|exact IH].
Qed.

Lemma dict_keys_set k v d :
  dict_keys (dict_set k v d) = add_key (dict_keys d) k.
Proof.
  unfold add_key. destruct (decide (k ∈ dict_keys d)) as [Hin|Hn].
  - apply dict_keys_set_present, list_elem_of_In, Hin.
  - apply dict_keys_set_absent. intros Hin. apply Hn, list_elem_of_In, Hin.
Qed.

Lemma dict_keys_set_NoDup k v d : NoDup (dict_keys d) -> NoDup (dict_keys (dict_set k v d)).
Proof. rewrite dict_keys_set. apply add_key_NoDup. Qed.
End DictFacts.

(** ** [dict.fromkeys] *)

Lemma fromkeys_fold (l : list string) (d : list (string * unit)) :
  dict_keys (fold_left (fun d k => dict_set k tt d) l d) = fold_left add_key l (dict_keys d).
Proof.
  revert d. induction l as [|x l IH]; intros d; simpl; [reflexivity|].
  rewrite IH, dict_keys_set. reflexivity.
Qed.

Lemma fromkeys_add_key l : fromkeys l = fold_left add_key l [].
Proof. unfold fromkeys. rewrite fromkeys_fold. reflexivity. Qed.

Lemma fold_add_key_nub (l acc : list string) :
  fold_left add_key l acc = acc ++ filter (fun y => y ∉ acc) (nub l).
Proof.
  revert acc. induction l as [|x l IH]; intros acc; simpl.
  - rewrite app_nil_r. reflexivity.
  - rewrite IH. unfold add_key. destruct (decide (x ∈ acc)) as [Hin|Hn].
    + rewrite filter_cons_False by (intros Hc; contradiction).
      rewrite list_filter_filter. f_equal. apply list_filter_iff.
      intros y. split; [|intros [Hy _]; exact Hy].
      intros Hy. split; [exact Hy|]. intros ->. contradiction.
    + rewrite filter_cons_True by exact Hn.
      rewrite <- app_assoc. simpl. do 2 f_equal.
      rewrite list_filter_filter. apply list_filter_iff.
      intros y. rewrite not_elem_of_app, not_elem_of_cons.
      split; [|intros [Ha Hb]; split; [exact Ha|split; [exact Hb|apply not_elem_of_nil]]].
      intros [Ha [Hb _]]. split; assumption.
Qed.

Lemma fromkeys_nub l : fromkeys l = nub l.
Proof.
  rewrite fromkeys_add_key, fold_add_key_nub. simpl.
  apply filter_all. intros y _. apply not_elem_of_nil.
Qed.

Lemma nub_elem_of l x : x ∈ nub l <-> x ∈ l.
Proof.
  induction l as [|y l IH]; simpl; [reflexivity|].
  rewrite !elem_of_cons, list_elem_of_filter, IH.
  destruct (decide (x = y)); tauto.
Qed.

Lemma nub_NoDup l : NoDup (nub l).
Proof.
  induction l as [|y l IH]; simpl; [constructor|].
  apply NoDup_cons. split; [|apply NoDup_filter, IH].
  rewrite list_elem_of_filter. tauto.
Qed.

Lemma StronglySorted_filter_ne (R1 R2 : string -> string -> Prop) (y : string) k :
  (forall a b, a <> y -> b <> y -> R1 a b -> R2 a b) ->
  StronglySorted R1 k -> StronglySorted R2 (filter (fun z => z <> y) k).
Proof.
  intros HR. induction 1 as [|a r Hr IHr Hall]; [constructor|].
  destruct (decide (a = y)) as [->|Hne].
  - rewrite filter_cons_False by tauto. exact IHr.
  - rewrite filter_cons_True by exact Hne. constructor; [exact IHr|].
    rewrite Forall_forall in Hall |- *. intros b Hb.
    apply list_elem_of_filter in Hb as [Hby Hb]. apply HR; auto.
Qed.

Lemma nub_first_index l :
  StronglySorted (fun a b => (first_index a l < first_index b l)%nat) (nub l).
Proof.
  induction l as [|y l IH]; simpl; [constructor|].
  constructor.
  - eapply StronglySorted_filter_ne; [|exact IH].
    intros a b Ha Hb Hlt. simpl in Hlt |- *.
    destruct (String.eqb_spec y a), (String.eqb_spec y b); try congruence. lia.
  - rewrite Forall_forall. intros b Hb. apply list_elem_of_filter in Hb as [Hne _].
    simpl. rewrite String.eqb_refl. destruct (String.eqb_spec y b); [congruence|lia].
Qed.

(** ** sorting *)

Lemma insert_sorted_perm {A} (le : A -> A -> bool) x l : insert_sorted le x l ≡ₚ x :: l.
Proof.
  induction l as [|y l IH]; simpl; [reflexivity|].
  destruct (le x y); [reflexivity|]. rewrite IH. apply Permutation_swap.
Qed.

Lemma stable_sort_perm {A} (le : A -> A -> bool) l : stable_sort le l ≡ₚ l.
Proof.
  induction l as [|x l IH]; simpl; [reflexivity|].
  rewrite insert_sorted_perm, IH. reflexivity.
Qed.

Lemma insert_by_key_sorted {A} (key : A -> Q) x l :
  StronglySorted (fun a b => (key a <= key b)%Q) l ->
  StronglySorted (fun a b => (key a <= key b)%Q)
    (insert_sorted (fun a b => Qle_bool (key a) (key b)) x l).
Proof.
  induction 1 as [|y l Hl IH Hall]; simpl; [repeat constructor|].
  destruct (Qle_bool (key x) (key y)) eqn:E.
  - apply Qle_bool_iff in E. constructor; [constructor; assumption|].
    constructor; [exact E|].
    rewrite Forall_forall in Hall |- *. intros z Hz.
    apply Qle_trans with (key y); auto.
  - assert (Hyx : (key y <= key x)%Q).
    { destruct (Qlt_le_dec (key y) (key x)) as [Hlt|Hle]; [apply Qlt_le_weak, Hlt|].
      apply Qle_bool_iff in Hle. congruence. }
    constructor; [exact IH|].
    rewrite Forall_forall in Hall |- *. intros z Hz.
    apply list_elem_of_In in Hz.
    apply (Permutation_in _ (insert_sorted_perm _ x l)) in Hz.
    destruct Hz as [<-|Hz]; [exact Hyx|]. apply Hall, list_elem_of_In, Hz.
Qed.

Lemma sorted_by_key_sorted {A} (key : A -> Q) l :
  StronglySorted (fun a b => (key a <= key b)%Q) (sorted_by_key key l).
Proof.
  unfold sorted_by_key, stable_sort.
  induction l as [|x l IH]; simpl; [constructor|].
  apply insert_by_key_sorted, IH.
Qed.

Lemma sorted_by_key_perm {A} (key : A -> Q) l : sorted_by_key key l ≡ₚ l.
Proof. apply stable_sort_perm. Qed.

(** ** slices *)

Lemma slice_to_sublist {A} k (l : list A) : slice_to k l `sublist_of` l.
Proof. unfold slice_to. destruct (0 <=? k)%Z; apply sublist_take. Qed.

Lemma slice_to_length {A} k (l : list A) :
  (0 <= k)%Z -> (Z.of_nat (length (slice_to k l)) <= k)%Z.
Proof.
  intros Hk. unfold slice_to. destruct (Z.leb_spec 0 k); [|lia].
  rewrite length_take. lia.
Qed.

Lemma slice_to_all {A} k (l : list A) :
  (Z.of_nat (length l) <= k)%Z -> slice_to k l = l.
Proof.
  intros Hk. unfold slice_to. destruct (Z.leb_spec 0 k); [|lia].
  apply take_ge. lia.
Qed.

(** ** the first largest item *)

Lemma max_by_from_spec {A} (key : A -> nat) (l : list A) (best : A) :
  In (max_by_from key best l) (best :: l) /\
  forall y, In y (best :: l) -> (key y <= key (max_by_from key best l))%nat.
Proof.
  revert best. induction l as [|x l IH]; intros best; simpl.
  - split; [auto|]. intros y [<-|[]]. lia.
  - destruct (Nat.ltb_spec (key best) (key x)) as [Hlt|Hge].
    + destruct (IH x) as [Hin Hmax]. split.
      * destruct Hin; auto.
      * intros y [<-|Hy]; [|apply Hmax, Hy].
        specialize (Hmax x (or_introl eq_refl)). lia.
    + destruct (IH best) as [Hin Hmax]. split.
      * destruct Hin; auto.
      * intros y [<-|[<-|Hy]].
        -- apply Hmax. left. reflexivity.
        -- specialize (Hmax best (or_introl eq_refl)). lia.
        -- apply Hmax. right. exact Hy.
Qed.

(* ================================================================== *)
(** * The program run on examples *)
(* ================================================================== *)

(** Two orders in which a set of strings may be iterated: by first
    insertion, and the reverse. *)
Definition insertion_order : SetOrder.
Proof.
  refine {| set_iter := nub |}.
  - apply nub_NoDup.
  - intros l x. rewrite <- !list_elem_of_In. apply nub_elem_of.
Defined.

Definition reverse_order : SetOrder.
Proof.
  refine {| set_iter l := rev (nub l) |}.
  - intros l. apply NoDup_ListNoDup, List.NoDup_rev, NoDup_ListNoDup, nub_NoDup.
  - intros l x. rewrite <- in_rev, <- !list_elem_of_In. apply nub_elem_of.
Defined.

(** The program on a few inputs. *)
Example predict_hello :
  @predict keyword_engine failing_vectoriser "Hello there, my email is a@b.com"
  = ("greeting", 0.95%Q).
Proof. vm_compute. reflexivity. Qed.

Example predict_multi_two :
  @predict_multi keyword_engine failing_vectoriser "hello can you help" 3
  = [("greeting", 0.95%Q); ("help", 0.95%Q)].
Proof. vm_compute. reflexivity. Qed.

Example extract_email :
  @extract keyword_engine "mail a@b.com or c@d.org or a@b.com"
  = [("EMAIL", ["a@b.com"; "c@d.org"])].
Proof. vm_compute. reflexivity. Qed.

Example memory_of_two_turns :
  let calls :=
    [ {| call_now := 1; call_role := "user"; call_text := "hello";
         call_intent := Some "greeting"; call_entities := Some [] |};
      {| call_now := 2; call_role := "model"; call_text := "Hi!";
         call_intent := None; call_entities := None |};
      {| call_now := 3; call_role := "user"; call_text := "mail me at a@b.com";
         call_intent := Some "general";
         call_entities := Some [("EMAIL", ["a@b.com"])] |} ] in
  let m := run_calls calls (ContextMemory_init 2) in
  map turn_text (turns m) = ["Hi!"; "mail me at a@b.com"] /\
  topic_history m = ["greeting"; "general"] /\
  entities_seen m = [("EMAIL", ["a@b.com"])] /\
  @get_summary insertion_order plain_format m
  = "2 turns · dominant intent: greeting · entities seen: [EMAIL]".
Proof. vm_compute. repeat split; reflexivity. Qed.

(* ================================================================== *)
(** * IntentRecogniser.predict *)
(* ================================================================== *)

Section PredictFacts.
Context `{RegexEngine} `{Vectoriser}.

Lemma INTENT_PATTERNS_general : general_is_empty INTENT_PATTERNS.
Proof.
  intros pats Hin. unfold INTENT_PATTERNS in Hin. simpl in Hin.
  repeat (destruct Hin as [Heq|Hin]; [inversion Heq; try reflexivity|]).
  contradiction.
Qed.

Lemma regex_first_None text cat :
  general_is_empty cat ->
  (regex_first text cat = None <->
   forall label pats, In (label, pats) cat -> entry_matches text pats = false).
Proof.
  induction cat as [|[l ps] cat IH]; intros Hgen; simpl.
  - split; [intros _ ? ? []|reflexivity].
  - assert (Hgen' : general_is_empty cat) by (intros p Hp; apply Hgen; right; exact Hp).
    destruct (IH Hgen') as [IH1 IH2].
    destruct (String.eqb_spec l "general") as [->|Hne].
    + rewrite (Hgen ps (or_introl eq_refl)). split.
      * intros Hr label pats [[= <- <-]|Hin]; [reflexivity|apply (IH1 Hr _ _ Hin)].
      * intros Hall. apply IH2. intros label pats Hin. apply (Hall label pats). right. exact Hin.
    + destruct (entry_matches text ps) eqn:E.
      * split; [discriminate|]. intros Hall.
        rewrite (Hall l ps (or_introl eq_refl)) in E. discriminate.
      * split.
        -- intros Hr label pats [[= <- <-]|Hin]; [exact E|apply (IH1 Hr _ _ Hin)].
        -- intros Hall. apply IH2. intros label pats Hin. apply (Hall label pats). right. exact Hin.
Qed.

Lemma regex_first_Some text cat label :
  general_is_empty cat ->
  regex_first text cat = Some label ->
  label <> "general" /\
  exists pre pats post,
    cat = pre ++ (label, pats) :: post /\
    entry_matches text pats = true /\
    forall l ps, In (l, ps) pre -> entry_matches text ps = false.
Proof.
  induction cat as [|[l ps] cat IH]; intros Hgen; simpl; [discriminate|].
  assert (Hgen' : general_is_empty cat) by (intros p Hp; apply Hgen; right; exact Hp).
  destruct (String.eqb_spec l "general") as [->|Hne].
  - intros Hr. destruct (IH Hgen' Hr) as [Hl (pre & pats & post & -> & Hm & Hpre)].
    split; [exact Hl|]. exists (("general", ps) :: pre), pats, post.
    split; [reflexivity|]. split; [exact Hm|].
    intros l' ps' [[= <- <-]|Hin]; [|apply (Hpre _ _ Hin)].
    rewrite (Hgen ps (or_introl eq_refl)). reflexivity.
  - destruct (entry_matches text ps) eqn:E.
    + intros [= <-]. split; [exact Hne|]. exists [], ps, cat.
      split; [reflexivity|]. split; [exact E|]. intros ? ? [].
    + intros Hr. destruct (IH Hgen' Hr) as [Hl (pre & pats & post & -> & Hm & Hpre)].
      split; [exact Hl|]. exists ((l, ps) :: pre), pats, post.
      split; [reflexivity|]. split; [exact Hm|].
      intros l' ps' [[= <- <-]|Hin]; [exact E|apply (Hpre _ _ Hin)].
Qed.

Lemma similarities_length text sims :
  similarities text = Some sims -> length sims = length _corpus_labels.
Proof.
  unfold similarities. destruct (transform_raises _ _); [discriminate|].
  intros [= <-]. unfold _corpus_labels, _corpus_texts. rewrite !length_map. reflexivity.
Qed.

Lemma similarities_In text sims s :
  similarities text = Some sims -> In s sims ->
  exists doc, s = cosine_to _corpus_texts text doc.
Proof.
  unfold similarities. destruct (transform_raises _ _); [discriminate|].
  intros Heq Hin.
  assert (E : sims = map (cosine_to _corpus_texts text) _corpus_texts) by congruence.
  rewrite E in Hin. apply in_map_iff in Hin as (doc & <- & _). exists doc. reflexivity.
Qed.

Lemma best_label_in_corpus text sims :
  similarities text = Some sims -> In (nth (argmax sims) _corpus_labels "") _corpus_labels.
Proof.
  intros Hs. pose proof (similarities_length _ _ Hs) as Hlen.
  apply nth_In. rewrite <- Hlen.
  apply argmax_spec. intros ->. discriminate Hlen.
Qed.

Lemma corpus_label_not_general label : In label _corpus_labels -> label <> "general".
Proof.
  unfold _corpus_labels. simpl. intros Hin Heq. subst.
  repeat (destruct Hin as [Hin|Hin]; [discriminate Hin|]). contradiction.
Qed.
End PredictFacts.

Section PredictClaims.
Context `{RegexEngine} `{Vectoriser}.

(** C4. When a pattern of some entry of the catalogue matches the text,
  [predict] returns the label of the first entry of the catalogue that
  matches, with confidence 0.95, whatever the vectoriser does. *)
Theorem predict_regex_first_match (text : string) :
(exists label pats,
    In (label, pats) INTENT_PATTERNS /\ entry_matches text pats = true) ->
exists pre label pats post,
  INTENT_PATTERNS = pre ++ (label, pats) :: post /\
  entry_matches text pats = true /\
  (forall l ps, In (l, ps) pre -> entry_matches text ps = false) /\
  predict text = (label, 0.95%Q).
Proof.
intros (label0 & pats0 & Hin0 & Hm0).
destruct (regex_first text INTENT_PATTERNS) as [label|] eqn:Hr.
- destruct (regex_first_Some _ _ _ INTENT_PATTERNS_general Hr)
    as [_ (pre & pats & post & Hcat & Hm & Hpre)].
  exists pre, label, pats, post. repeat split; try assumption.
  unfold predict. rewrite Hr. reflexivity.
- pose proof (proj1 (regex_first_None _ _ INTENT_PATTERNS_general) Hr) as Hall.
  rewrite (Hall _ _ Hin0) in Hm0. discriminate.
Qed.

(** C10. A prediction labelled ["general"] has confidence 0.50. *)
Theorem predict_general_confidence (text : string) (conf : Q) :
predict text = ("general", conf) -> conf = 0.50%Q.
Proof.
unfold predict.
destruct (regex_first text INTENT_PATTERNS) as [label|] eqn:Hr.
- intros [= -> _].
  destruct (regex_first_Some _ _ _ INTENT_PATTERNS_general Hr) as [Hne _]. congruence.
- destruct (similarities text) as [sims|] eqn:Hs; [|intros [= <-]; reflexivity].
  cbv zeta. destruct (Qltb 0.12 (nth (argmax sims) sims 0%Q)).
  + intros [= Hl _]. exfalso.
    apply (corpus_label_not_general _ (best_label_in_corpus _ _ Hs)). exact Hl.
  + intros [= <-]. reflexivity.
Qed.

End PredictClaims.

(** C4 on an example: greeting stands before help in the catalogue, so a
    text with a word of each is a greeting. *)
Lemma predict_regex_first_match_witness :
  exists pre label pats post,
    INTENT_PATTERNS = pre ++ (label, pats) :: post /\
    @entry_matches keyword_engine "hello can you help" pats = true /\
    (forall l ps, In (l, ps) pre -> @entry_matches keyword_engine "hello can you help" ps = false) /\
    @predict keyword_engine failing_vectoriser "hello can you help" = (label, 0.95%Q).
Proof.
  apply (@predict_regex_first_match keyword_engine failing_vectoriser "hello can you help").
  exists "help", ["\b(help|assist|support|what\s*can\s*you\s*do|how\s*do\s*i|usage|guide)\b"].
  split; [|vm_compute; reflexivity].
  unfold INTENT_PATTERNS. simpl. tauto.
Defined.

(** The keyword matcher finds no pattern in the word "morning". *)
Lemma morning_matches_nothing label pats :
  In (label, pats) INTENT_PATTERNS ->
  @entry_matches keyword_engine "morning" pats = false.
Proof.
  unfold INTENT_PATTERNS. simpl.
  intros Hin.
  repeat (destruct Hin as [Heq|Hin]; [injection Heq as <- <-; vm_compute; reflexivity|]).
  contradiction.
Qed.

(** The similarities of [table_vectoriser] are at most 1 when the table's are. *)
Lemma table_vectoriser_bounded table text doc :
  (forall k v, In (k, v) table -> (v <= 1)%Q) ->
  (@cosine_to (table_vectoriser table) _corpus_texts text doc <= 1)%Q.
Proof.
  intros Hb. cbn. destruct (dict_get doc table) as [v|] eqn:E; cbn.
  - apply (Hb doc v), dict_get_In, E.
  - unfold Qle. simpl. lia.
Qed.

(** C10 on an example: a largest similarity of 0.1 is not accepted. *)
Lemma predict_general_confidence_witness :
  @predict keyword_engine
    (table_vectoriser [("hello hi hey good morning", 0.1%Q)]) "morning"
  = ("general", 0.50%Q) /\ 0.50%Q = 0.50%Q.
Proof.
  split; [vm_compute; reflexivity|].
  apply (@predict_general_confidence keyword_engine
           (table_vectoriser [("hello hi hey good morning", 0.1%Q)]) "morning").
  vm_compute. reflexivity.
Defined.



(* ================================================================== *)
(** * IntentRecogniser.predict_multi *)
(* ================================================================== *)

Lemma keep_highest_merged done seen hit :
  merged done seen -> merged (done ++ [hit]) (keep_highest seen hit).
Proof.
  destruct hit as [l c]. intros (Hnd & Hget & Hall). unfold keep_highest.
  assert (Hin_app : forall l' c', In (l', c') (done ++ [(l, c)]) <->
                                  In (l', c') done \/ (l' = l /\ c' = c)).
  { intros l' c'. rewrite in_app_iff. simpl. split.
    - intros [?|[[= <- <-]|[]]]; auto.
    - intros [?|[-> ->]]; auto. }
  destruct (dict_get l seen) as [c0|] eqn:E0; [destruct (Qltb c0 c) eqn:Elt|].
  - (* a higher confidence replaces the one seen *)
    apply Qltb_lt in Elt. split; [apply dict_keys_set_NoDup, Hnd|]. split.
    + intros l' c'. destruct (decide (l = l')) as [<-|Hne].
      * rewrite dict_get_set_eq. intros [= <-]. split; [apply Hin_app; auto|].
        intros c' Hc'. apply Hin_app in Hc' as [Hc'|[_ ->]]; [|apply Qle_refl].
        destruct (Hget _ _ E0) as [_ Hmax]. specialize (Hmax _ Hc').
        apply Qle_trans with c0; [exact Hmax|apply Qlt_le_weak, Elt].
      * rewrite dict_get_set_ne by exact Hne. intros Hg.
        destruct (Hget _ _ Hg) as [Hin Hmax]. split; [apply Hin_app; auto|].
        intros c'' Hc''. apply Hin_app in Hc'' as [Hc''|[-> _]]; [auto|congruence].
    + intros l' c' Hin. destruct (decide (l = l')) as [<-|Hne].
      * rewrite dict_get_set_eq. discriminate.
      * rewrite dict_get_set_ne by exact Hne.
        apply Hin_app in Hin as [Hin|[-> _]]; [eauto|congruence].
  - (* the confidence seen stays *)
    apply Qltb_ge in Elt. split; [exact Hnd|]. split.
    + intros l' c' Hg. destruct (Hget _ _ Hg) as [Hin Hmax].
      split; [apply Hin_app; auto|].
      intros c'' Hc''. apply Hin_app in Hc'' as [Hc''|[-> ->]]; [auto|].
      rewrite E0 in Hg. injection Hg as <-. exact Elt.
    + intros l' c' Hin. apply Hin_app in Hin as [Hin|[-> _]]; [eauto|].
      rewrite E0. discriminate.
  - (* a new label *)
    split; [apply dict_keys_set_NoDup, Hnd|]. split.
    + intros l' c'. destruct (decide (l = l')) as [<-|Hne].
      * rewrite dict_get_set_eq. intros [= <-]. split; [apply Hin_app; auto|].
        intros c' Hc'. apply Hin_app in Hc' as [Hc'|[_ ->]]; [|apply Qle_refl].
        exfalso. apply (Hall _ _ Hc'). exact E0.
      * rewrite dict_get_set_ne by exact Hne. intros Hg.
        destruct (Hget _ _ Hg) as [Hin Hmax]. split; [apply Hin_app; auto|].
        intros c'' Hc''. apply Hin_app in Hc'' as [Hc''|[-> _]]; [auto|congruence].
    + intros l' c' Hin. destruct (decide (l = l')) as [<-|Hne].
      * rewrite dict_get_set_eq. discriminate.
      * rewrite dict_get_set_ne by exact Hne.
        apply Hin_app in Hin as [Hin|[-> _]]; [eauto|congruence].
Qed.

Lemma fold_keep_highest_merged hits done seen :
  merged done seen -> merged (done ++ hits) (fold_left keep_highest hits seen).
Proof.
  revert done seen. induction hits as [|h hits IH]; intros done seen Hm; simpl.
  - rewrite app_nil_r. exact Hm.
  - replace (done ++ h :: hits) with ((done ++ [h]) ++ hits) by (rewrite <- app_assoc; reflexivity).
    apply IH, keep_highest_merged, Hm.
Qed.

Lemma merged_fold hits : merged hits (fold_left keep_highest hits []).
Proof.
  apply (fold_keep_highest_merged hits [] []).
  split; [constructor|]. split; [discriminate|]. intros ? ? [].
Qed.

Lemma StronglySorted_weaken {A} (R1 R2 : A -> A -> Prop) l :
  (forall a b, R1 a b -> R2 a b) -> StronglySorted R1 l -> StronglySorted R2 l.
Proof.
  intros HR. induction 1 as [|a l Hl IH Hall]; constructor; [exact IH|].
  eapply Forall_impl; [exact Hall|]. intros b. apply HR.
Qed.

Section PredictMultiFacts.
Context `{RegexEngine} `{Vectoriser}.

Lemma regex_hits_In text cat l c :
  In (l, c) (regex_hits text cat) <->
  c = 0.95%Q /\ l <> "general" /\
  exists pats, In (l, pats) cat /\ entry_matches text pats = true.
Proof.
  induction cat as [|[l0 ps] cat IH]; simpl.
  - split; [intros []|intros (_ & _ & ? & [] & _)].
  - destruct IH as [IH1 IH2].
    destruct (String.eqb_spec l0 "general") as [->|Hne].
    + split.
      * intros Hin. destruct (IH1 Hin) as (Hc & Hl & pats & Hp & Hm).
        split; [exact Hc|]. split; [exact Hl|]. exists pats. auto.
      * intros (Hc & Hl & pats & [[= <- <-]|Hp] & Hm); [congruence|].
        apply IH2. split; [exact Hc|]. split; [exact Hl|]. exists pats. auto.
    + destruct (entry_matches text ps) eqn:E; simpl.
      * split.
        -- intros [[= <- <-]|Hin].
           ++ split; [reflexivity|]. split; [exact Hne|]. exists ps. auto.
           ++ destruct (IH1 Hin) as (Hc & Hl & pats & Hp & Hm).
              split; [exact Hc|]. split; [exact Hl|]. exists pats. auto.
        -- intros (Hc & Hl & pats & [[= <- <-]|Hp] & Hm); [left; congruence|].
           right. apply IH2. split; [exact Hc|]. split; [exact Hl|]. exists pats. auto.
      * split.
        -- intros Hin. destruct (IH1 Hin) as (Hc & Hl & pats & Hp & Hm).
           split; [exact Hc|]. split; [exact Hl|]. exists pats. auto.
        -- intros (Hc & Hl & pats & [[= <- <-]|Hp] & Hm); [congruence|].
           apply IH2. split; [exact Hc|]. split; [exact Hl|]. exists pats. auto.
Qed.

Lemma tfidf_hits_In text top_k l c :
  In (l, c) (tfidf_hits text top_k) ->
  exists sims idx,
    similarities text = Some sims /\ (idx < length sims)%nat /\
    (0.05 < nth idx sims 0)%Q /\
    l = nth idx _corpus_labels "" /\ c = py_round 3 (nth idx sims 0%Q).
Proof.
  unfold tfidf_hits. destruct (similarities text) as [sims|]; [|intros []].
  intros Hin. apply in_map_iff in Hin as (idx & [= <- <-] & Hin).
  apply list_elem_of_In, list_elem_of_filter in Hin as [Hgt Hin].
  exists sims, idx. split; [reflexivity|]. split.
  - pose proof (elem_of_sublist _ _ _ Hin (slice_to_sublist top_k _)) as Hin'.
    apply list_elem_of_In, in_rev in Hin'.
    apply (Permutation_in _ (sorted_by_key_perm _ _)) in Hin'.
    apply in_seq in Hin'. lia.
  - split; [apply Qltb_lt, Hgt|]. split; reflexivity.
Qed.
End PredictMultiFacts.

Lemma dict_set_length {V} k (v : V) d : (length (dict_set k v d) <= S (length d))%nat.
Proof.
  induction d as [|[k' v'] d IH]; simpl; [lia|].
  destruct (String.eqb k k'); simpl; lia.
Qed.

Lemma keep_highest_length seen hit :
  (length (keep_highest seen hit) <= S (length seen))%nat.
Proof.
  destruct hit as [l c]. unfold keep_highest. destruct (dict_get l seen) as [c0|].
  - destruct (Qltb c0 c); [apply dict_set_length|lia].
  - apply dict_set_length.
Qed.

Lemma fold_keep_highest_length hits seen :
  (length (fold_left keep_highest hits seen) <= length seen + length hits)%nat.
Proof.
  revert seen. induction hits as [|h hits IH]; intros seen; cbn [fold_left length]; [lia|].
  specialize (IH (keep_highest seen h)). pose proof (keep_highest_length seen h). lia.
Qed.

Lemma sublist_map {A B} (f : A -> B) (l k : list A) :
  l `sublist_of` k -> map f l `sublist_of` map f k.
Proof. induction 1; simpl; constructor; assumption. Qed.

(** What holds of the merged, sorted and truncated list, for every bound. *)
Lemma merge_sort_slice hits top_k :
  let result :=
    slice_to top_k (sorted_by_key (fun x => (- snd x)%Q) (fold_left keep_highest hits [])) in
  NoDup (map fst result) /\
  StronglySorted (fun a b => (snd b <= snd a)%Q) result /\
  (forall l c, In (l, c) result ->
     In (l, c) hits /\ forall c', In (l, c') hits -> (c' <= c)%Q) /\
  ((Z.of_nat (length hits) <= top_k)%Z ->
     forall l c, In (l, c) hits -> In l (map fst result)).
Proof.
  cbv zeta. set (seen := fold_left keep_highest hits []).
  set (sorted := sorted_by_key (fun x => (- snd x)%Q) seen).
  destruct (merged_fold hits) as (Hnd & Hget & Hall). fold seen in Hnd, Hget, Hall.
  assert (Hperm : sorted ≡ₚ seen) by apply sorted_by_key_perm.
  assert (Hsub : slice_to top_k sorted `sublist_of` sorted) by apply slice_to_sublist.
  assert (Hnd' : NoDup (map fst sorted)).
  { assert (Hkeys : map fst sorted ≡ₚ dict_keys seen) by apply Permutation_map, Hperm.
    rewrite Hkeys. exact Hnd. }
  split; [|split; [|split]].
  - apply (sublist_NoDup _ _ Hnd' (sublist_map fst _ _ Hsub)).
  - apply (StronglySorted_sublist _ _ sorted Hsub).
    eapply StronglySorted_weaken; [|apply sorted_by_key_sorted].
    intros a b Hab. simpl in Hab. lra.
  - intros l c Hin. apply Hget, dict_In_get; [exact Hnd|].
    apply (Permutation_in _ Hperm), list_elem_of_In.
    apply (elem_of_sublist _ _ _ (proj2 (list_elem_of_In _ _) Hin) Hsub).
  - intros Hlen l c Hin.
    assert (Hall' : slice_to top_k sorted = sorted).
    { apply slice_to_all. rewrite (Permutation_length Hperm).
      pose proof (fold_keep_highest_length hits []) as Hl. fold seen in Hl. simpl in Hl. lia. }
    rewrite Hall'. apply (Permutation_in _ (Permutation_map fst (Permutation_sym Hperm))).
    destruct (in_dec string_dec l (dict_keys seen)) as [Hk|Hk]; [exact Hk|].
    exfalso. apply (Hall _ _ Hin). apply dict_get_None. exact Hk.
Qed.

Section PredictMultiClaims.
Context `{RegexEngine} `{Vectoriser}.

End PredictMultiClaims.



(* ================================================================== *)
(** * NERExtractor.extract *)
(* ================================================================== *)

Lemma fromkeys_spec (l : list string) :
  NoDup (fromkeys l) /\
  (forall s, In s (fromkeys l) <-> In s l) /\
  StronglySorted (fun a b => (first_index a l < first_index b l)%nat) (fromkeys l).
Proof.
  rewrite fromkeys_nub. split; [apply nub_NoDup|]. split; [|apply nub_first_index].
  intros s. rewrite <- !list_elem_of_In. apply nub_elem_of.
Qed.

Section ExtractFacts.
Context `{RegexEngine}.

Lemma extract_with_fold table text :
  extract_with table text = fold_left (extract_step text) table [].
Proof.
  unfold extract_with. f_equal.
Qed.

Lemma extract_step_other text acc l p label :
  label <> l -> dict_get label (extract_step text acc (l, p)) = dict_get label acc.
Proof.
  intros Hne. unfold extract_step. destruct (re_findall p text); [reflexivity|].
  apply dict_get_set_ne. congruence.
Qed.

Lemma extract_fold_other text table acc label :
  ~ In label (map fst table) ->
  dict_get label (fold_left (extract_step text) table acc) = dict_get label acc.
Proof.
  revert acc. induction table as [|[l p] table IH]; intros acc Hn; simpl; [reflexivity|].
  simpl in Hn. rewrite IH by tauto. apply extract_step_other. intros ->. tauto.
Qed.

Lemma extract_fold_get text table acc label pattern :
  List.NoDup (map fst table) -> In (label, pattern) table ->
  dict_get label acc = None ->
  dict_get label (fold_left (extract_step text) table acc) =
  match re_findall pattern text with
  | [] => None
  | _ => Some (fromkeys (re_findall pattern text))
  end.
Proof.
  revert acc. induction table as [|[l p] table IH]; intros acc Hnd Hin Hacc; [destruct Hin|].
  simpl in Hnd. inversion Hnd as [|? ? Hnotin Hnd']; subst.
  cbn [fold_left]. destruct Hin as [[= -> ->]|Hin].
  - rewrite extract_fold_other by exact Hnotin.
    unfold extract_step. destruct (re_findall pattern text); [exact Hacc|].
    apply dict_get_set_eq.
  - apply IH; [exact Hnd'|exact Hin|].
    rewrite extract_step_other; [exact Hacc|].
    intros ->. apply Hnotin. apply (in_map fst) in Hin. exact Hin.
Qed.

Lemma extract_fold_keys text table acc label :
  In label (dict_keys (fold_left (extract_step text) table acc)) ->
  In label (dict_keys acc) \/ In label (map fst table).
Proof.
  revert acc. induction table as [|[l p] table IH]; intros acc; simpl; [auto|].
  intros Hin. destruct (IH _ Hin) as [Hk|Hk]; [|auto].
  unfold extract_step in Hk. destruct (re_findall p text); [auto|].
  rewrite dict_keys_set in Hk. unfold add_key in Hk.
  destruct (decide (l ∈ dict_keys acc)); [auto|].
  apply in_app_or in Hk as [Hk|[<-|[]]]; auto.
Qed.

Lemma extract_fold_NoDup text table acc :
  NoDup (dict_keys acc) -> NoDup (dict_keys (fold_left (extract_step text) table acc)).
Proof.
  revert acc. induction table as [|[l p] table IH]; intros acc Hnd; simpl; [exact Hnd|].
  apply IH. unfold extract_step. destruct (re_findall p text); [exact Hnd|].
  apply dict_keys_set_NoDup, Hnd.
Qed.

Lemma NER_PATTERNS_labels : List.NoDup (map fst NER_PATTERNS).
Proof.
  apply NoDup_ListNoDup. apply (bool_decide_unpack _). vm_compute. exact I.
Qed.

(** C9. The mapping of [extract] has each key once. A type of the table is
  bound exactly when its pattern has a match; the list it is bound to is
  not empty, holds every matched string once and no other string, in the
  order of the first occurrences among the matches. Every key of the
  mapping is a type of the table. *)
Theorem extract_types_and_matches (text : string) :
NoDup (dict_keys (extract text)) /\
(forall label pattern, In (label, pattern) NER_PATTERNS ->
   let matches := re_findall pattern text in
   match dict_get label (extract text) with
   | None => matches = []
   | Some found =>
       matches <> [] /\ found <> [] /\ NoDup found /\
       (forall s, In s found <-> In s matches) /\
       StronglySorted
         (fun a b => (first_index a matches < first_index b matches)%nat) found
   end) /\
(forall label found, In (label, found) (extract text) ->
   dict_get label (extract text) = Some found /\
   exists pattern, In (label, pattern) NER_PATTERNS).
Proof.
unfold extract. rewrite extract_with_fold.
assert (Hnd : NoDup (dict_keys (fold_left (extract_step text) NER_PATTERNS [])))
  by (apply extract_fold_NoDup; constructor).
split; [exact Hnd|]. split.
- intros label pattern Hin. cbv zeta.
  rewrite (extract_fold_get text _ [] label pattern NER_PATTERNS_labels Hin eq_refl).
  destruct (re_findall pattern text) as [|m ms] eqn:Em; [reflexivity|].
  destruct (fromkeys_spec (m :: ms)) as (Hnd' & Hiff & Hord).
  split; [discriminate|]. split; [|split; [exact Hnd'|split; [exact Hiff|exact Hord]]].
  intros Hempty. assert (Hm : In m (fromkeys (m :: ms))) by (apply Hiff; left; reflexivity).
  rewrite Hempty in Hm. destruct Hm.
- intros label found Hin. split; [apply dict_In_get; assumption|].
  assert (Hk : In label (dict_keys (fold_left (extract_step text) NER_PATTERNS [])))
    by (apply (in_map fst) in Hin; exact Hin).
  apply extract_fold_keys in Hk as [[]|Hk].
  apply in_map_iff in Hk as ([l p] & <- & Hp). exists p. exact Hp.
Qed.
End ExtractFacts.

Lemma run_calls_snoc calls c m :
  run_calls (calls ++ [c]) m = apply_call (run_calls calls m) c.
Proof. unfold run_calls. rewrite fold_left_app. reflexivity. Qed.

Lemma run_calls_window calls m : window (run_calls calls m) = window m.
Proof.
  revert m. induction calls as [|c calls IH]; intros m; simpl; [reflexivity|].
  unfold run_calls in IH. rewrite IH. reflexivity.
Qed.

Lemma tl_skipn {A} (l : list A) k : tl (skipn k l) = skipn (S k) l.
Proof.
  revert k. induction l as [|x l IH]; intros [|k]; simpl; try reflexivity.
  apply IH.
Qed.

Lemma apply_call_turns m c :
  turns (apply_call m c) = deque_append (window m) (turns m) (turn_of c).
Proof. reflexivity. Qed.

(** The window holds the last [window] turns of all that were added. *)
Lemma run_calls_turns W calls :
  turns (run_calls calls (ContextMemory_init W)) =
  skipn (length calls - W) (map turn_of calls).
Proof.
  induction calls as [|c calls IH] using rev_ind; [reflexivity|].
  rewrite run_calls_snoc, apply_call_turns.
  rewrite run_calls_window, IH. cbn [window ContextMemory_init].
  rewrite map_app, length_app. cbn [map length].
  unfold deque_append.
  set (all := map turn_of calls).
  assert (Hlen : length all = length calls) by apply length_map.
  rewrite length_app, length_skipn, Hlen. cbn [length].
  destruct (Nat.ltb_spec W (length calls - (length calls - W) + 1)) as [Hlt|Hge].
  - (* full: the oldest turn leaves *)
    assert (Hk : (length calls - W <= length all)%nat) by lia.
    rewrite <- (drop_app_le all [turn_of c] _ Hk).
    rewrite tl_skipn. f_equal. lia.
  - assert (Hk : (length calls - W <= length all)%nat) by lia.
    rewrite <- (drop_app_le all [turn_of c] _ Hk). f_equal. lia.
Qed.

Lemma apply_call_topic m c :
  topic_history (apply_call m c) = topic_history m ++ trail_of [c].
Proof.
  unfold apply_call, add_turn, trail_of. cbn [topic_history flat_map].
  destruct (call_intent c) as [i|]; [|rewrite !app_nil_r; reflexivity].
  destruct (negb (String.eqb i "") && String.eqb (call_role c) "user");
    rewrite ?app_nil_r; reflexivity.
Qed.

Lemma run_calls_topic calls m :
  topic_history (run_calls calls m) = topic_history m ++ trail_of calls.
Proof.
  revert m. induction calls as [|c calls IH]; intros m.
  - simpl. rewrite app_nil_r. reflexivity.
  - change (run_calls (c :: calls) m) with (run_calls calls (apply_call m c)).
    rewrite IH, apply_call_topic, <- app_assoc. f_equal.
    unfold trail_of. simpl. rewrite app_nil_r. reflexivity.
Qed.

Lemma extend_seen_keys seen kv :
  dict_keys (extend_seen seen kv) = add_key (dict_keys seen) (fst kv).
Proof.
  destruct kv as [k v]. unfold extend_seen.
  destruct (dict_get k seen); apply dict_keys_set.
Qed.

Lemma fold_extend_seen_keys ents seen :
  dict_keys (fold_left extend_seen ents seen) =
  fold_left add_key (map fst ents) (dict_keys seen).
Proof.
  revert seen. induction ents as [|kv ents IH]; intros seen; simpl; [reflexivity|].
  rewrite IH, extend_seen_keys. reflexivity.
Qed.

Lemma run_calls_entity_keys calls m :
  dict_keys (entities_seen (run_calls calls m)) =
  fold_left add_key (types_of calls) (dict_keys (entities_seen m)).
Proof.
  revert m. induction calls as [|c calls IH]; intros m; [reflexivity|].
  change (run_calls (c :: calls) m) with (run_calls calls (apply_call m c)).
  rewrite IH. unfold types_of. cbn [flat_map]. rewrite fold_left_app. f_equal.
  unfold apply_call, add_turn. cbn [entities_seen].
  rewrite fold_extend_seen_keys. destruct (call_entities c); reflexivity.
Qed.

Section SummaryFacts.
Context `{SetOrder}.

Lemma list_count_absent l trail : ~ In l trail -> list_count l trail = 0%nat.
Proof.
  induction trail as [|y trail IH]; simpl; [reflexivity|]. intros Hn.
  destruct (String.eqb_spec y l); [tauto|]. apply IH. tauto.
Qed.

(** The label reported is a mode of the trail. *)
Lemma top_intent_mode trail :
  trail <> [] ->
  In (top_intent trail) trail /\
  forall l, (list_count l trail <= list_count (top_intent trail) trail)%nat.
Proof.
  intros Hne. unfold top_intent. destruct trail as [|t trail']; [congruence|].
  set (trail := t :: trail') in *.
  destruct (set_iter trail) as [|x r] eqn:Es.
  - exfalso. assert (Hin : In t (set_iter trail)) by (apply set_iter_elem; left; reflexivity).
    rewrite Es in Hin. destruct Hin.
  - destruct (max_by_from_spec (fun l => list_count l trail) r x) as [Hin Hmax].
    rewrite <- Es in Hin, Hmax. split; [apply set_iter_elem, Hin|].
    intros l. destruct (in_dec string_dec l trail) as [Hl|Hl].
    + apply Hmax, set_iter_elem, Hl.
    + rewrite (list_count_absent _ _ Hl). lia.
Qed.
End SummaryFacts.

Section MemoryClaims.
Context `{SetOrder} `{PyFormat}.

(** C7. A memory that holds at most [window] turns still does after
    [add_turn]; so, whatever turns are added to a fresh memory of window
    [W], it holds at most [W] of them. After one turn more than the window
    has room for, it holds the turns from the second one on, in the order
    they were added: the first is gone and the oldest turn present is the
    second one. *)
Theorem memory_window_fifo :
  (forall m call,
     (length (turns m) <= window m)%nat ->
     (length (turns (apply_call m call)) <= window (apply_call m call))%nat) /\
  (forall W calls,
     (length (turns (run_calls calls (ContextMemory_init W))) <= W)%nat) /\
  (forall first rest,
     let W := length rest in
     let m := run_calls (first :: rest) (ContextMemory_init W) in
     turns m = map turn_of rest /\
     nth_error (turns m) 0 = nth_error (map turn_of (first :: rest)) 1 /\
     (~ In (turn_of first) (map turn_of rest) -> ~ In (turn_of first) (turns m))).
Proof.
  split; [|split].
  - intros m call Hlen. rewrite apply_call_turns.
    change (window (apply_call m call)) with (window m).
    unfold deque_append.
    assert (Hq : length (turns m ++ [turn_of call]) = S (length (turns m)))
      by (rewrite length_app; cbn [length]; lia).
    destruct (turns m ++ [turn_of call]) as [|t q]; [discriminate Hq|].
    cbn [length] in Hq.
    destruct (Nat.ltb_spec (window m) (length (t :: q))) as [Hlt|Hge];
      cbn [tl length] in *; lia.
  - intros W calls. rewrite run_calls_turns, length_skipn, length_map. lia.
  - intros first rest. cbv zeta. rewrite run_calls_turns.
    cbn [length map]. replace (S (length rest) - length rest)%nat with 1%nat by lia.
    cbn [skipn]. split; [reflexivity|]. split; [destruct rest; reflexivity|]. auto.
Qed.

End MemoryClaims.


(* ================================================================== *)
(** * SentimentAnalyser.analyse *)
(* ================================================================== *)

Lemma neg_emotions_spec (e : string) :
  e ∈ _NEG_EMOTIONS <-> e = "anger" \/ e = "fear" \/ e = "sadness".
Proof.
  unfold _NEG_EMOTIONS. rewrite !elem_of_union, !elem_of_singleton. tauto.
Qed.

Section AnalyseClaims.
Context `{Pipelines}.

Lemma classify_rounded proba classes :
  py_round 3 (snd (classify proba classes)) = snd (classify proba classes).
Proof. unfold classify. cbn [snd]. apply py_round_idem. Qed.

(** The fields of the result for a text that is not blank. *)
Lemma analyse_fields text :
  (String.eqb text "" || String.eqb (strip text) "") = false ->
  let '(emotion, emo_conf) := raw_emotion text in
  let '(polarity, pol_conf) := reconcile emotion emo_conf (raw_polarity text) in
  analyse text !! "polarity" = Some (PStr polarity) /\
  analyse text !! "polarity_conf" = Some (PFloat pol_conf) /\
  analyse text !! "emotion" = Some (PStr emotion) /\
  analyse text !! "emotion_conf" = Some (PFloat emo_conf).
Proof.
  intros Hb. unfold analyse. rewrite Hb.
  destruct (raw_emotion text) as [emotion emo_conf].
  destruct (reconcile emotion emo_conf (raw_polarity text)) as [polarity pol_conf].
  repeat split; reflexivity.
Qed.

End AnalyseClaims.


(* ================================================================== *)
(** * GeminiClient.respond *)
(* ================================================================== *)

Lemma _fallback_response_shape intent sentiment :
  _fallback_response intent sentiment =
  (if says_negative sentiment then "I'm sorry you're having a tough time. " else "") +:+
  match _INTENT_FALLBACKS !! intent with
  | Some canned => canned
  | None => "I'm here to help! Could you rephrase your question so I can assist better?"
  end.
Proof.
  unfold _fallback_response, says_negative. f_equal.
  destruct sentiment as [s|]; [|reflexivity].
  destruct (decide (s = ∅)) as [->|Hne].
  - rewrite lookup_empty. reflexivity.
  - rewrite (bool_decide_eq_true_2 _ Hne). reflexivity.
Qed.

Section RespondClaims.
Context {genai : GenAI} {fmt : PyFormat}.

(** C2. When every message sent to the backend raises, [respond] sends the
  enriched prompt three times, sleeping 1.5 s and 3 s in between, and
  returns the fallback text: the apology when the sentiment says negative,
  then the canned reply of the intent, or the request to rephrase when the
  intent has none. When the first message raises and the second is
  answered, it sends two messages and returns the answer, post-processed. *)
Theorem respond_retries_then_falls_back (self : GeminiClient)
  (user_text intent : string) (intent_conf : Q)
  (entities : option (list (string * list string)))
  (sentiment : option (gmap string PyVal)) (context_summary : string) :
let enriched :=
  _build_enriched_prompt user_text intent intent_conf (default [] entities)
    (default ∅ sentiment) context_summary in
let outcome :=
  respond self user_text intent intent_conf entities sentiment context_summary in
((forall chat, snd (send_message chat enriched) = None) ->
 snd (fst outcome) =
   (if says_negative sentiment then "I'm sorry you're having a tough time. " else "") +:+
   match _INTENT_FALLBACKS !! intent with
   | Some canned => canned
   | None => "I'm here to help! Could you rephrase your question so I can assist better?"
   end /\
 attempts_made (snd outcome) = 3%nat /\
 snd outcome =
   [ SendMessage 1; LogWarning 1; Sleep (RETRY_BACKOFF * 1);
     SendMessage 2; LogWarning 2; Sleep (RETRY_BACKOFF * 2);
     SendMessage 3; LogWarning 3 ]) /\
(forall chat1 chat2 answer,
   send_message (_chat self) enriched = (chat1, None) ->
   send_message chat1 enriched = (chat2, Some answer) ->
   snd (fst outcome) = _post_process answer /\
   attempts_made (snd outcome) = 2%nat /\
   _chat (fst (fst outcome)) = chat2 /\
   snd outcome =
     [ SendMessage 1; LogWarning 1; Sleep (RETRY_BACKOFF * 1); SendMessage 2 ]).
Proof.
cbv zeta. unfold respond.
set (enriched := _build_enriched_prompt _ _ _ _ _ _).
change (seq 1 MAX_RETRIES) with [1; 2; 3]%nat.
split.
- intros Hfail. cbn [respond_attempts].
  pose proof (Hfail (_chat self)) as Hs1.
  destruct (send_message (_chat self) enriched) as [chat1 r1]. cbn [snd] in Hs1. subst r1.
  pose proof (Hfail chat1) as Hs2.
  destruct (send_message chat1 enriched) as [chat2 r2]. cbn [snd] in Hs2. subst r2.
  pose proof (Hfail chat2) as Hs3.
  destruct (send_message chat2 enriched) as [chat3 r3]. cbn [snd] in Hs3. subst r3.
  cbn. split; [apply _fallback_response_shape|]. split; reflexivity.
- intros chat1 chat2 answer Hs1 Hs2. cbn [respond_attempts].
  rewrite Hs1. cbn. rewrite Hs2. cbn. repeat split; reflexivity.
Qed.
End RespondClaims.

(** C2 on two scripted backends: one that always raises, one that raises
    once. *)
Lemma respond_retries_then_falls_back_witness :
  snd (fst (@respond (scripted_backend []) plain_format (scripted_client [])
              "hello" "greeting" 0.95%Q None
              (Some {[ "polarity" := PStr "negative" ]}) ""))
  = "I'm sorry you're having a tough time. Hello! 👋 I'm DynamiChat. How can I help you today?" /\
  attempts_made
    (snd (@respond (scripted_backend []) plain_format (scripted_client [])
            "hello" "greeting" 0.95%Q None
            (Some {[ "polarity" := PStr "negative" ]}) "")) = 3%nat /\
  snd (fst (@respond (scripted_backend flaky_script) plain_format
              (scripted_client flaky_script)
              "hello" "greeting" 0.95%Q None None ""))
  = "Hi there!" +:+ String "010"%char "How can I help?" /\
  attempts_made
    (snd (@respond (scripted_backend flaky_script) plain_format
            (scripted_client flaky_script)
            "hello" "greeting" 0.95%Q None None "")) = 2%nat.
Proof.
  destruct (@respond_retries_then_falls_back (scripted_backend []) plain_format
              (scripted_client []) "hello" "greeting" 0.95%Q None
              (Some {[ "polarity" := PStr "negative" ]}) "") as [Hall _].
  destruct (@respond_retries_then_falls_back (scripted_backend flaky_script)
              plain_format (scripted_client flaky_script)
              "hello" "greeting" 0.95%Q None None "")
    as [_ Hflaky].
  assert (Hraises : forall (chat : nat) (prompt : string),
             snd (@send_message (scripted_backend []) chat prompt) = None)
    by (intros [|n] prompt; reflexivity).
  destruct (Hall (fun chat => Hraises chat _)) as (Htext & Hn & _).
  destruct (Hflaky 1%nat 2%nat _ eq_refl eq_refl) as (Htext' & Hn' & _).
  split; [rewrite Htext; vm_compute; reflexivity|]. split; [exact Hn|].
  split; [rewrite Htext'; vm_compute; reflexivity|exact Hn'].
Defined.

(* ================================================================== *)
(** * ChatbotCore.process_message *)
(* ================================================================== *)

Section CoreClaims.
Context {re : RegexEngine} {vec : Vectoriser} {pipes : Pipelines}
        {order : SetOrder} {fmt : PyFormat} {gateway : Gateway}.

Lemma ask_gemini_answer self user_text intent intent_conf entities sentiment ctx :
  snd (ask_gemini self user_text intent intent_conf entities sentiment ctx) =
  gateway_answer (_gemini self) user_text intent intent_conf entities sentiment ctx.
Proof.
  unfold ask_gemini, _get_gemini, gateway_answer.
  destruct (_gemini self) as [c|].
  - destruct (client_respond c _ _ _ _ _ _). reflexivity.
  - destruct new_client as [c|]; [|reflexivity]. cbn.
    destruct (client_respond c _ _ _ _ _ _). reflexivity.
Qed.

Lemma gateway_answer_Raise held user_text intent intent_conf entities sentiment ctx :
  gateway_answer held user_text intent intent_conf entities sentiment ctx = Raise <->
  (held = None /\ new_client = None) \/
  (exists c, (held = Some c \/ (held = None /\ new_client = Some c)) /\
             snd (client_respond c user_text intent intent_conf entities
                    sentiment ctx) = None).
Proof.
  unfold gateway_answer. destruct held as [c|].
  - destruct (snd (client_respond c _ _ _ _ _ _)) as [reply|] eqn:E; cbn.
    + split; [discriminate|]. intros [[Hn _]|(c' & [[= <-]|[Hn _]] & Hc')]; congruence.
    + split; [|reflexivity]. intros _. right. exists c. auto.
  - destruct new_client as [c|].
    + destruct (snd (client_respond c _ _ _ _ _ _)) as [reply|] eqn:E; cbn.
      * split; [discriminate|]. intros [[_ Hn]|(c' & [Hn|[_ [= <-]]] & Hc')]; congruence.
      * split; [|reflexivity]. intros _. right. exists c. auto.
    + split; [|reflexivity]. intros _. left. auto.
Qed.

(** C3. [process_message] returns an envelope for every text and every
  state of the core: no step raises past it. The envelope carries the
  prediction, the ranked intents, the entities, the sentiment, the summary
  of the memory after the user turn and the rounded latency. Its text is
  the reply of the gateway with source ["gemini"]; when building the
  client or asking it raised, the text is the emergency fallback and the
  source is ["fallback"]. *)
Theorem process_message_always_returns (clock : TurnClock) (user_text : string)
  (self : ChatbotCore) :
exists self' response,
  process_message clock user_text self = Ok (self', response) /\
  intent response = fst (predict user_text) /\
  intent_conf response = snd (predict user_text) /\
  multi_intents response = predict_multi user_text 3 /\
  entities response = extract user_text /\
  sentiment response = analyse user_text /\
  context_summary response =
    get_summary (add_turn (time_user_turn clock) "user" user_text
                   (Some (fst (predict user_text))) (Some (extract user_text))
                   (memory self)) /\
  response_time_ms response =
    py_round 1 ((perf_end clock - perf_start clock) * 1000) /\
  match gateway_answer (_gemini self) user_text (intent response)
          (intent_conf response) (entities response) (sentiment response)
          (context_summary response) with
  | Ok reply => text response = reply /\ source response = "gemini"
  | Raise =>
      text response = _emergency_fallback (intent response) (sentiment response) /\
      source response = "fallback"
  end.
Proof.
unfold process_message.
destruct (predict user_text) as [label conf]. cbn [fst snd].
set (mem1 := add_turn _ _ _ _ _ _).
set (self1 := {| memory := mem1; analytics := analytics self; _gemini := _gemini self |}).
pose proof (ask_gemini_answer self1 user_text label conf (extract user_text)
              (analyse user_text) (get_summary mem1)) as Hans.
destruct (ask_gemini self1 user_text label conf (extract user_text)
            (analyse user_text) (get_summary mem1)) as [self2 answer].
cbn [snd] in Hans. change (_gemini self1) with (_gemini self) in Hans.
destruct answer as [reply|];
  (eexists _, _; split; [reflexivity|];
   cbn [intent intent_conf multi_intents entities sentiment context_summary
        response_time_ms text source];
   rewrite <- Hans; repeat split; reflexivity).
Qed.
End CoreClaims.

(** With [GeminiClient] as the gateway, only the constructor can raise. *)
Lemma gemini_gateway_answer_Raise {genai : GenAI} {env : Environ} {fmt : PyFormat}
    held user_text intent intent_conf entities sentiment ctx :
  @gateway_answer GeminiGateway held user_text intent intent_conf entities sentiment ctx
    = Raise <->
  held = None /\ GeminiClient_init = None.
Proof.
  rewrite gateway_answer_Raise. split; [|auto].
  intros [Hn|(c & _ & Hc)]; [exact Hn|]. exfalso.
  cbn in Hc. destruct (respond c _ _ _ _ _ _) as [[c' reply] log]. discriminate Hc.
Qed.

Example client_with_default_key :
  @GeminiClient_init (scripted_backend []) empty_environ = Some (scripted_client []).
Proof. reflexivity. Qed.

Example process_message_without_client :
  let clock := {| perf_start := 0; time_user_turn := 1; time_bot_turn := 2;
                  perf_end := 0.25; time_record := 3 |} in
  exists self',
    @process_message keyword_engine failing_vectoriser constant_pipelines
      insertion_order plain_format unbuildable_gateway clock "hello"
      (@ChatbotCore_init unbuildable_gateway [])
    = Ok (self',
          {| text := "I hear you – sorry you're going through that. Hey! 👋 I'm DynamiChat. How can I help?";
             intent := "greeting";
             intent_conf := 0.95;
             multi_intents := [("greeting", 0.95%Q)];
             entities := [];
             sentiment :=
               @analyse constant_pipelines "hello";
             source := "fallback";
             response_time_ms := 250.0;
             context_summary := "1 turns · dominant intent: greeting · entities seen: []" |}).
Proof. eexists. vm_compute. reflexivity. Qed.

(* ================================================================== *)
(** * Further properties: SentimentAnalyser *)
(* ================================================================== *)

Lemma drop_spaces_all l :
  Forall (fun c => is_space c = true) l -> drop_spaces l = [].
Proof.
  induction 1 as [|c l Hc _ IH]; simpl; [reflexivity|]. rewrite Hc. exact IH.
Qed.

Lemma strip_all_spaces text :
  Forall (fun c => is_space c = true) (list_ascii_of_string text) -> strip text = "".
Proof.
  intros Hall. unfold strip. rewrite (drop_spaces_all _ Hall). reflexivity.
Qed.

Lemma py_round_unit n x : (0 <= x <= 1)%Q -> (0 <= py_round n x <= 1)%Q.
Proof.
  intros [H0 H1]. split.
  - apply Qle_trans with (py_round n (0 # pow10 n)).
    + rewrite py_round_fixed. unfold Qle. simpl. lia.
    + apply py_round_mono. apply Qle_trans with 0%Q; [unfold Qle; simpl; lia|exact H0].
  - apply Qle_trans with (py_round n (Zpos (pow10 n) # pow10 n)).
    + apply py_round_mono. apply Qle_trans with 1%Q; [exact H1|unfold Qle; simpl; lia].
    + rewrite py_round_fixed. unfold Qle. simpl. lia.
Qed.

Section AnalyseFurther.
Context {pipes : Pipelines}.

Lemma classify_in_classes proba classes :
  classes <> [] ->
  (forall cls, (0 <= proba cls <= 1)%Q) ->
  In (fst (classify proba classes)) classes /\
  (0 <= snd (classify proba classes) <= 1)%Q.
Proof.
  intros Hne Hp. unfold classify. cbn [fst snd].
  assert (Hprobs : map proba classes <> []) by (destruct classes; [congruence|discriminate]).
  destruct (argmax_spec _ Hprobs) as [Hidx _].
  split.
  - apply nth_In. rewrite length_map in Hidx. exact Hidx.
  - apply py_round_unit.
    assert (Hin : In (nth (argmax (map proba classes)) (map proba classes) 0%Q)
                     (map proba classes)) by (apply nth_In, Hidx).
    apply in_map_iff in Hin as (cls & <- & _). apply Hp.
Qed.


(** X2. With probabilities between 0 and 1, every result of [analyse] has
    the six keys and no other; the polarity is one of the three polarity
    classes, the emotion one of the six emotion classes, both confidences
    lie between 0 and 1, the subjectivity is one of its two labels, and the
    emoji is the one the table gives for the emotion. *)
Theorem analyse_result_shape (text : string) :
  (forall cls, 0 <= sentiment_proba text cls <= 1)%Q ->
  (forall cls, 0 <= emotion_proba text cls <= 1)%Q ->
  exists polarity pol_conf emotion emo_conf subjectivity emoji,
    analyse text =
      list_to_map
        [ ("polarity", PStr polarity); ("polarity_conf", PFloat pol_conf);
          ("emotion", PStr emotion); ("emotion_conf", PFloat emo_conf);
          ("subjectivity", PStr subjectivity); ("emoji", PStr emoji) ] /\
    In polarity _SENTIMENT_CLASSES /\
    In emotion _EMOTION_CLASSES /\
    (0 <= pol_conf <= 1)%Q /\ (0 <= emo_conf <= 1)%Q /\
    In subjectivity ["subjective"; "objective"] /\
    _EMOJI_MAP !! emotion = Some emoji.
Proof.
  intros Hs He. unfold analyse.
  destruct (String.eqb text "" || String.eqb (strip text) "").
  { exists "neutral", 0.5%Q, "neutral", 0.5%Q, "objective", "😐".
    split; [reflexivity|]. simpl. repeat split; try tauto;
      try (unfold Qle; simpl; lia). }
  destruct (classify_in_classes (emotion_proba text) _EMOTION_CLASSES
              ltac:(discriminate) He) as [Hein Hec].
  destruct (classify_in_classes (sentiment_proba text) _SENTIMENT_CLASSES
              ltac:(discriminate) Hs) as [Hpin Hpc].
  fold (raw_emotion text) in Hein, Hec. fold (raw_polarity text) in Hpin, Hpc.
  destruct (raw_emotion text) as [emotion emo_conf].
  destruct (raw_polarity text) as [polarity pol_conf].
  cbn [fst snd] in *.
  assert (Hemoji : exists emoji, _EMOJI_MAP !! emotion = Some emoji).
  { simpl in Hein. destruct Hein as [<-|[<-|[<-|[<-|[<-|[<-|[]]]]]]];
      eexists; vm_compute; reflexivity. }
  destruct Hemoji as [emoji Hemoji].
  assert (Hrec : exists p pc, reconcile emotion emo_conf (polarity, pol_conf) = (p, pc) /\
                 In p _SENTIMENT_CLASSES /\ (0 <= pc <= 1)%Q).
  { unfold reconcile.
    destruct (bool_decide (emotion ∈ _NEG_EMOTIONS) && String.eqb polarity "neutral"
              && Qltb pol_conf 0.70).
    - eexists _, _. split; [reflexivity|]. split; [simpl; tauto|].
      apply py_round_unit. unfold py_max.
      destruct (Qltb pol_conf (emo_conf * 0.85)); [|exact Hpc]. lra.
    - eexists _, _. split; [reflexivity|]. split; assumption. }
  destruct Hrec as (p & pc & -> & Hp & Hpc').
  exists p, pc, emotion, emo_conf, (subjectivity_of text), emoji.
  rewrite Hemoji. cbn [default]. split; [reflexivity|].
  repeat split; try assumption; try apply Hpc'; try apply Hec.
  unfold subjectivity_of. simpl. destruct (bool_decide _); tauto.
Qed.


End AnalyseFurther.


(** X2 on an example. *)
Lemma analyse_result_shape_witness :
  exists polarity pol_conf emotion emo_conf subjectivity emoji,
    @analyse cheerful_pipelines "what a lovely day" =
      list_to_map
        [ ("polarity", PStr polarity); ("polarity_conf", PFloat pol_conf);
          ("emotion", PStr emotion); ("emotion_conf", PFloat emo_conf);
          ("subjectivity", PStr subjectivity); ("emoji", PStr emoji) ] /\
    In polarity _SENTIMENT_CLASSES /\
    In emotion _EMOTION_CLASSES /\
    (0 <= pol_conf <= 1)%Q /\ (0 <= emo_conf <= 1)%Q /\
    In subjectivity ["subjective"; "objective"] /\
    _EMOJI_MAP !! emotion = Some emoji.
Proof.
  apply (@analyse_result_shape cheerful_pipelines "what a lovely day").
  - intros cls. cbn. destruct (String.eqb cls "positive"); split; unfold Qle; simpl; lia.
  - intros cls. cbn. destruct (String.eqb cls "joy"); split; unfold Qle; simpl; lia.
Defined.


(* ================================================================== *)
(** * Further properties: IntentRecogniser *)
(* ================================================================== *)

Lemma py_round_above n (z : Z) x :
  (z # pow10 n <= x)%Q -> (z # pow10 n <= py_round n x)%Q.
Proof.
  intros Hle. rewrite <- (py_round_fixed n z) at 1. apply py_round_mono, Hle.
Qed.

Lemma dict_set_absent {V} k (v : V) d :
  dict_get k d = None -> dict_set k v d = d ++ [(k, v)].
Proof.
  induction d as [|[k' v'] d IH]; simpl; [reflexivity|].
  destruct (String.eqb k k'); [discriminate|]. intros Hn. rewrite IH by exact Hn. reflexivity.
Qed.

(** Hits with distinct labels, none of them seen, are kept as they come. *)
Lemma fold_keep_highest_distinct hits seen :
  List.NoDup (map fst hits) ->
  (forall l, In l (map fst hits) -> dict_get l seen = None) ->
  fold_left keep_highest hits seen = seen ++ hits.
Proof.
  revert seen. induction hits as [|[l c] hits IH]; intros seen Hnd Hnew; simpl.
  - rewrite app_nil_r. reflexivity.
  - inversion Hnd as [|? ? Hnotin Hnd']; subst.
    rewrite (Hnew l (or_introl eq_refl)).
    rewrite (dict_set_absent _ _ _ (Hnew l (or_introl eq_refl))).
    rewrite IH; [rewrite <- app_assoc; reflexivity|exact Hnd'|].
    intros l' Hl'. apply dict_get_None. unfold dict_keys. rewrite map_app.
    intros Hin. apply in_app_or in Hin as [Hin|[<-|[]]].
    + apply (proj1 (dict_get_None l' seen)); [|exact Hin]. apply Hnew. right. exact Hl'.
    + contradiction.
Qed.

(** Sorting a list that is in order leaves it as it is. *)
Lemma sorted_by_key_fixed {A} (key : A -> Q) l :
  StronglySorted (fun a b => (key a <= key b)%Q) l -> sorted_by_key key l = l.
Proof.
  unfold sorted_by_key, stable_sort.
  induction 1 as [|x l Hl IH Hall]; simpl; [reflexivity|].
  rewrite IH. destruct l as [|y l']; [reflexivity|]. simpl.
  apply Forall_cons in Hall as [Hxy _].
  rewrite (proj2 (Qle_bool_iff _ _) Hxy). reflexivity.
Qed.

Lemma equal_confidence_sorted (c : Q) (l : list (string * Q)) :
  Forall (fun hit => snd hit = c) l ->
  StronglySorted (fun a b => (- snd a <= - snd b)%Q) l.
Proof.
  induction 1 as [|x l Hx Hl IH]; constructor; [exact IH|].
  rewrite Forall_forall in Hl |- *. intros y Hy. rewrite Hx, (Hl y Hy). apply Qle_refl.
Qed.

Lemma or_else_nonempty {A} (l alt : list A) :
  l <> [] -> match l with [] => alt | _ => l end = l.
Proof. destruct l; [congruence|reflexivity]. Qed.

Lemma hd_error_slice_to {A} k (l : list A) :
  (1 <= k)%Z -> hd_error (slice_to k l) = hd_error l.
Proof.
  intros Hk. unfold slice_to. destruct (Z.leb_spec 0 k); [|lia].
  destruct (Z.to_nat k) as [|n] eqn:E; [lia|]. destruct l; reflexivity.
Qed.

Section IntentFurther.
Context {re : RegexEngine} {vec : Vectoriser}.

Lemma regex_hits_labels text cat :
  map fst (regex_hits text cat) `sublist_of` map fst cat.
Proof.
  induction cat as [|[l ps] cat IH]; simpl; [constructor|].
  destruct (String.eqb l "general"); [constructor; exact IH|].
  destruct (entry_matches text ps); simpl; constructor; exact IH.
Qed.

Lemma regex_hits_confidence text cat :
  Forall (fun hit => snd hit = 0.95%Q) (regex_hits text cat).
Proof.
  induction cat as [|[l ps] cat IH]; simpl; [constructor|].
  destruct (String.eqb l "general"); [exact IH|].
  destruct (entry_matches text ps); [constructor; [reflexivity|exact IH]|exact IH].
Qed.

Lemma regex_first_hd text cat :
  regex_first text cat = fst <$> hd_error (regex_hits text cat).
Proof.
  induction cat as [|[l ps] cat IH]; simpl; [reflexivity|].
  destruct (String.eqb l "general"); [exact IH|].
  destruct (entry_matches text ps); [reflexivity|exact IH].
Qed.

Lemma INTENT_PATTERNS_labels : NoDup (map fst INTENT_PATTERNS).
Proof. apply (bool_decide_unpack _). vm_compute. exact I. Qed.

Lemma corpus_labels_in_catalogue label :
  In label _corpus_labels -> In label (map fst INTENT_PATTERNS).
Proof.
  unfold _corpus_labels. simpl. intros Hin.
  repeat (destruct Hin as [<-|Hin]; [tauto|]). contradiction.
Qed.

Lemma predict_label_In (text : string) :
  In (fst (predict text)) (map fst INTENT_PATTERNS).
Proof.
  unfold predict.
  destruct (regex_first text INTENT_PATTERNS) as [label|] eqn:Hr.
  - destruct (regex_first_Some _ _ _ INTENT_PATTERNS_general Hr)
      as [_ (pre & pats & post & Hcat & _)].
    cbn [fst]. rewrite Hcat, map_app. apply in_or_app. right. left. reflexivity.
  - destruct (similarities text) as [sims|] eqn:Hs; [|simpl; tauto].
    cbv zeta. destruct (Qltb 0.12 (nth (argmax sims) sims 0%Q)); cbn [fst].
    + apply corpus_labels_in_catalogue, (best_label_in_corpus _ _ Hs).
    + simpl. tauto.
Qed.

Lemma predict_label_nonempty (text : string) : fst (predict text) <> "".
Proof.
  pose proof (predict_label_In text) as Hin. intros E. rewrite E in Hin.
  simpl in Hin. repeat (destruct Hin as [Hin|Hin]; [discriminate Hin|]).
  contradiction.
Qed.

(** X5. The label of [predict] is always one of the eleven labels of the
    catalogue, and its confidence is at least 0.12 (and at most 1 when the
    similarities are). *)
Theorem predict_label_in_catalogue (text : string) :
  In (fst (predict text)) (map fst INTENT_PATTERNS) /\
  (0.12 <= snd (predict text))%Q /\
  ((forall doc, cosine_to _corpus_texts text doc <= 1)%Q ->
   (snd (predict text) <= 1)%Q).
Proof.
  unfold predict.
  destruct (regex_first text INTENT_PATTERNS) as [label|] eqn:Hr.
  - destruct (regex_first_Some _ _ _ INTENT_PATTERNS_general Hr)
      as [_ (pre & pats & post & Hcat & _)].
    cbn [fst snd]. split; [|split; [|intros _]]; try (unfold Qle; simpl; lia).
    rewrite Hcat, map_app. apply in_or_app. right. left. reflexivity.
  - destruct (similarities text) as [sims|] eqn:Hs.
    + cbv zeta. destruct (Qltb 0.12 (nth (argmax sims) sims 0%Q)) eqn:E; cbn [fst snd].
      * apply Qltb_lt in E. split; [|split].
        -- apply corpus_labels_in_catalogue, (best_label_in_corpus _ _ Hs).
        -- apply Qle_trans with (120 # pow10 3)%Q; [unfold Qle; simpl; lia|].
           apply py_round_above. apply Qlt_le_weak in E.
           apply Qle_trans with 0.12%Q; [unfold Qle; simpl; lia|exact E].
        -- intros Hle1.
           pose proof (similarities_length _ _ Hs) as Hlen.
           assert (Hne : sims <> []) by (intros ->; discriminate Hlen).
           destruct (argmax_spec sims Hne) as [Hidx _].
           destruct (similarities_In _ _ _ Hs (nth_In _ 0%Q Hidx)) as [doc Hdoc].
           rewrite Hdoc. apply Qle_trans with (py_round 3 (1000 # pow10 3)).
           ++ apply py_round_mono.
              apply Qle_trans with 1%Q; [apply Hle1|unfold Qle; simpl; lia].
           ++ rewrite py_round_fixed. unfold Qle. simpl. lia.
      * split; [simpl; tauto|]. split; [|intros _]; unfold Qle; simpl; lia.
    + cbn [fst snd]. split; [simpl; tauto|]. split; [|intros _]; unfold Qle; simpl; lia.
Qed.

(** X6. When a pattern of the catalogue matches, [predict_multi] returns
    the regex hits in the order of the catalogue, cut at [top_k]: nothing is
    merged or reordered. For a [top_k] of at least 1 its first entry is the
    prediction of [predict]. *)
Theorem predict_multi_regex_hits (text : string) (top_k : Z) :
  regex_hits text INTENT_PATTERNS <> [] ->
  predict_multi text top_k = slice_to top_k (regex_hits text INTENT_PATTERNS) /\
  ((1 <= top_k)%Z -> hd_error (predict_multi text top_k) = Some (predict text)).
Proof.
  intros Hne.
  assert (Hpm : predict_multi text top_k = slice_to top_k (regex_hits text INTENT_PATTERNS)).
  { unfold predict_multi.
    rewrite (or_else_nonempty _ _ Hne), (or_else_nonempty _ _ Hne).
    rewrite fold_keep_highest_distinct.
    - rewrite app_nil_l. f_equal. apply sorted_by_key_fixed.
      apply (equal_confidence_sorted _ _ (regex_hits_confidence text INTENT_PATTERNS)).
    - apply NoDup_ListNoDup.
      apply (sublist_NoDup _ _ INTENT_PATTERNS_labels (regex_hits_labels text _)).
    - reflexivity. }
  split; [exact Hpm|]. intros Hk. rewrite Hpm, hd_error_slice_to by exact Hk.
  unfold predict. rewrite regex_first_hd.
  destruct (regex_hits text INTENT_PATTERNS) as [|[l c] hits] eqn:Eh; [congruence|].
  pose proof (regex_hits_confidence text INTENT_PATTERNS) as Hconf.
  rewrite Eh in Hconf. apply Forall_cons in Hconf as [Hc _]. cbn in Hc. subst c.
  reflexivity.
Qed.
End IntentFurther.

(** X6 on an example: two patterns match and [top_k] is 1. *)
Lemma predict_multi_regex_hits_witness :
  @predict_multi keyword_engine failing_vectoriser "hello can you help" 1 =
    slice_to 1 (@regex_hits keyword_engine "hello can you help" INTENT_PATTERNS) /\
  ((1 <= 1)%Z ->
   hd_error (@predict_multi keyword_engine failing_vectoriser "hello can you help" 1) =
   Some (@predict keyword_engine failing_vectoriser "hello can you help")).
Proof.
  apply (@predict_multi_regex_hits keyword_engine failing_vectoriser
           "hello can you help" 1).
  vm_compute. discriminate.
Defined.

Lemma filter_none {A} (P : A -> Prop) `{forall x, Decision (P x)} (l : list A) :
  (forall x, In x l -> ~ P x) -> filter P l = [].
Proof.
  induction l as [|x l IH]; intros Hall; [reflexivity|].
  rewrite filter_cons_False by (apply Hall; left; reflexivity).
  apply IH. intros y Hy. apply Hall. right. exact Hy.
Qed.

Lemma list_filter_none {A} (f : A -> bool) (l : list A) :
  (forall x, In x l -> f x = false) -> List.filter f l = [].
Proof.
  induction l as [|x l IH]; intros Hall; [reflexivity|]. simpl.
  rewrite (Hall x (or_introl eq_refl)). apply IH. intros y Hy. apply Hall. right. exact Hy.
Qed.

Lemma nth_le_bound (sims : list Q) (b : Q) idx :
  (0 <= b)%Q -> (forall s, In s sims -> (s <= b)%Q) -> (nth idx sims 0 <= b)%Q.
Proof.
  intros Hb Hall. destruct (Nat.lt_ge_cases idx (length sims)) as [Hlt|Hge].
  - apply Hall, nth_In, Hlt.
  - rewrite nth_overflow by exact Hge. exact Hb.
Qed.

Section IntentNoSignal.
Context {re : RegexEngine} {vec : Vectoriser}.

(** X7. When no pattern of the catalogue matches and the statistical stage
    gives nothing (the transform raises, or no similarity is above 0.05),
    [predict_multi] returns the one entry [("general", 0.50)], cut at
    [top_k]; for a [top_k] of at least 1 this is the prediction of
    [predict] and nothing else. *)
Theorem predict_multi_no_signal (text : string) (top_k : Z) :
  regex_hits text INTENT_PATTERNS = [] ->
  match similarities text with
  | None => True
  | Some sims => forall s, In s sims -> (s <= 0.05)%Q
  end ->
  predict_multi text top_k = slice_to top_k [("general", 0.50%Q)] /\
  ((1 <= top_k)%Z -> predict_multi text top_k = [predict text]).
Proof.
  intros Hrh Hsims.
  assert (Hth : tfidf_hits text top_k = []).
  { unfold tfidf_hits. destruct (similarities text) as [sims|]; [|reflexivity].
    rewrite filter_none; [reflexivity|].
    intros idx _ Hgt. apply Qltb_lt in Hgt.
    apply (Qlt_not_le _ _ Hgt), nth_le_bound; [unfold Qle; simpl; lia|exact Hsims]. }
  assert (Hpm : predict_multi text top_k = slice_to top_k [("general", 0.50%Q)]).
  { unfold predict_multi. rewrite Hrh, Hth. reflexivity. }
  split; [exact Hpm|]. intros Hk. rewrite Hpm.
  assert (Hp : predict text = ("general", 0.50%Q)).
  { unfold predict. rewrite regex_first_hd, Hrh. cbn.
    destruct (similarities text) as [sims|]; [|reflexivity].
    assert (E : Qltb 0.12 (nth (argmax sims) sims 0%Q) = false).
    { apply Qltb_ge. apply Qle_trans with 0.05%Q; [|unfold Qle; simpl; lia].
      apply nth_le_bound; [unfold Qle; simpl; lia|exact Hsims]. }
    rewrite E. reflexivity. }
  rewrite Hp. unfold slice_to. destruct (Z.leb_spec 0 top_k); [|lia].
  destruct (Z.to_nat top_k) as [|n] eqn:E; [lia|]. destruct n; reflexivity.
Qed.
End IntentNoSignal.

(** X7 on an example: no pattern matches and the one similarity is 0.03. *)
Lemma predict_multi_no_signal_witness :
  @predict_multi keyword_engine (table_vectoriser [("hello there", 0.03%Q)])
    "lorem ipsum" 3 = slice_to 3 [("general", 0.50%Q)] /\
  ((1 <= 3)%Z ->
   @predict_multi keyword_engine (table_vectoriser [("hello there", 0.03%Q)])
     "lorem ipsum" 3 =
   [@predict keyword_engine (table_vectoriser [("hello there", 0.03%Q)]) "lorem ipsum"]).
Proof.
  apply (@predict_multi_no_signal keyword_engine
           (table_vectoriser [("hello there", 0.03%Q)]) "lorem ipsum" 3).
  - vm_compute. reflexivity.
  - cbn. intros s Hin.
    repeat (destruct Hin as [<-|Hin]; [unfold Qle; simpl; lia|]). contradiction.
Defined.

(* ================================================================== *)
(** * Further properties: NERExtractor and ContextMemory *)
(* ================================================================== *)

Section ExtractFurther.
Context {re : RegexEngine}.

Lemma extract_fold_keys_order text table acc :
  List.NoDup (map fst table) ->
  (forall l, In l (map fst table) -> ~ In l (dict_keys acc)) ->
  dict_keys (fold_left (extract_step text) table acc) =
  dict_keys acc ++
  map fst (List.filter (fun '(_, pattern) =>
                          match re_findall pattern text with [] => false | _ => true end)
                       table).
Proof.
  revert acc. induction table as [|[l p] table IH]; intros acc Hnd Hnew.
  - simpl. rewrite app_nil_r. reflexivity.
  - inversion Hnd as [|? ? Hnotin Hnd']; subst. cbn [fold_left List.filter].
    assert (Hl : ~ In l (dict_keys acc)) by (apply Hnew; left; reflexivity).
    unfold extract_step at 2. destruct (re_findall p text) as [|m ms].
    + apply IH; [exact Hnd'|]. intros l' Hl'. apply Hnew. right. exact Hl'.
    + rewrite IH; [|exact Hnd'|].
      * rewrite (dict_keys_set_absent _ _ _ Hl), <- app_assoc. reflexivity.
      * intros l' Hl'. rewrite (dict_keys_set_absent _ _ _ Hl).
        intros Hin. apply in_app_or in Hin as [Hin|[<-|[]]].
        -- apply (Hnew l'); [right; exact Hl'|exact Hin].
        -- contradiction.
Qed.

(** X8. The keys of the mapping of [extract] are the types of the table
    whose pattern has a match, in the order of the table; a text in which
    no pattern has a match gives the empty mapping. *)
Theorem extract_keys_in_table_order (text : string) :
  dict_keys (extract text) =
    map fst (List.filter
               (fun '(_, pattern) =>
                  match re_findall pattern text with [] => false | _ => true end)
               NER_PATTERNS) /\
  ((forall label pattern, In (label, pattern) NER_PATTERNS ->
      re_findall pattern text = []) ->
   extract text = []).
Proof.
  assert (Hkeys : dict_keys (extract text) =
    map fst (List.filter
               (fun '(_, pattern) =>
                  match re_findall pattern text with [] => false | _ => true end)
               NER_PATTERNS)).
  { unfold extract. rewrite extract_with_fold.
    rewrite (extract_fold_keys_order text NER_PATTERNS [] NER_PATTERNS_labels);
      [reflexivity|]. intros l _ []. }
  split; [exact Hkeys|]. intros Hnone.
  assert (Hf : List.filter
                 (fun '(_, pattern) =>
                    match re_findall pattern text with [] => false | _ => true end)
                 NER_PATTERNS = []).
  { apply list_filter_none. intros [l p] Hin. rewrite (Hnone l p Hin). reflexivity. }
  rewrite Hf in Hkeys. unfold dict_keys in Hkeys.
  destruct (extract text); [reflexivity|discriminate Hkeys].
Qed.
End ExtractFurther.

Lemma extend_seen_values seen kv k :
  default [] (dict_get k (extend_seen seen kv)) =
  default [] (dict_get k seen) ++ values_in k [kv].
Proof.
  destruct kv as [k' v]. unfold extend_seen, values_in. cbn [flat_map fst snd].
  rewrite app_nil_r.
  destruct (String.eqb_spec k' k) as [->|Hne].
  - destruct (dict_get k seen) as [old|] eqn:E; rewrite dict_get_set_eq; reflexivity.
  - rewrite app_nil_r.
    destruct (dict_get k' seen); rewrite dict_get_set_ne by exact Hne; reflexivity.
Qed.

Lemma fold_extend_seen_values ents seen k :
  default [] (dict_get k (fold_left extend_seen ents seen)) =
  default [] (dict_get k seen) ++ values_in k ents.
Proof.
  revert seen. induction ents as [|kv ents IH]; intros seen.
  - simpl. rewrite app_nil_r. reflexivity.
  - cbn [fold_left]. rewrite IH, extend_seen_values, <- app_assoc. f_equal.
    unfold values_in. cbn [flat_map]. rewrite app_nil_r. reflexivity.
Qed.

Lemma run_calls_values calls m k :
  default [] (dict_get k (entities_seen (run_calls calls m))) =
  default [] (dict_get k (entities_seen m)) ++ values_of k calls.
Proof.
  revert m. induction calls as [|c calls IH]; intros m.
  - simpl. rewrite app_nil_r. reflexivity.
  - change (run_calls (c :: calls) m) with (run_calls calls (apply_call m c)).
    rewrite IH. unfold values_of. cbn [flat_map]. rewrite app_assoc. f_equal.
    unfold apply_call, add_turn. cbn [entities_seen].
    rewrite fold_extend_seen_values. destruct (call_entities c); reflexivity.
Qed.

(** X9. The memory keeps, for each entity type, every value the calls gave
    for it, in the order they came and with repetitions; a type is a key
    exactly when a call mentioned it. The window plays no part: nothing is
    dropped when turns leave the window. *)
Theorem entities_seen_accumulates (W : nat) (calls : list AddTurn) (k : string) :
  let m := run_calls calls (ContextMemory_init W) in
  default [] (dict_get k (entities_seen m)) = values_of k calls /\
  (dict_get k (entities_seen m) = None <-> ~ In k (types_of calls)).
Proof.
  cbv zeta. split.
  - rewrite run_calls_values. reflexivity.
  - rewrite dict_get_None, run_calls_entity_keys. cbn [entities_seen ContextMemory_init dict_keys map].
    rewrite <- fromkeys_add_key.
    destruct (fromkeys_spec (types_of calls)) as (_ & Hiff & _).
    rewrite (Hiff k). reflexivity.
Qed.

(** X10. The history handed to the backend is made of the last [W] turns
    added, oldest first, each with its role and its text. *)
Theorem get_history_for_gemini_window (W : nat) (calls : list AddTurn) :
  get_history_for_gemini (run_calls calls (ContextMemory_init W)) =
  map (fun c => (call_role c, [call_text c])) (skipn (length calls - W) calls) /\
  (length (get_history_for_gemini (run_calls calls (ContextMemory_init W))) <= W)%nat.
Proof.
  unfold get_history_for_gemini. rewrite run_calls_turns. split.
  - rewrite <- !skipn_map, map_map. reflexivity.
  - rewrite length_map, length_skipn, length_map. lia.
Qed.

Example entities_seen_repeats :
  let calls :=
    [ {| call_now := 1; call_role := "user"; call_text := "a@b.com";
         call_intent := Some "general";
         call_entities := Some [("EMAIL", ["a@b.com"])] |};
      {| call_now := 2; call_role := "user"; call_text := "a@b.com again";
         call_intent := Some "general";
         call_entities := Some [("EMAIL", ["a@b.com"])] |} ] in
  entities_seen (run_calls calls (ContextMemory_init 1))
  = [("EMAIL", ["a@b.com"; "a@b.com"])] /\
  get_history_for_gemini (run_calls calls (ContextMemory_init 1))
  = [("user", ["a@b.com again"])].
Proof. vm_compute. split; reflexivity. Qed.

(* ================================================================== *)
(** * Further properties: GeminiClient *)
(* ================================================================== *)

Section RespondFurther.
Context {genai : GenAI} {fmt : PyFormat}.

(** X11. Whatever the backend does, [respond] sends between one and three
    messages and sleeps 4.5 seconds at most; its reply is the post-processed
    answer to the last message sent, or the fallback text after three
    messages that raised. A first message that is answered ends the call:
    no warning, no sleep, no second message. *)
Theorem respond_bounded (self : GeminiClient) (user_text intent : string)
    (intent_conf : Q) (entities : option (list (string * list string)))
    (sentiment : option (gmap string PyVal)) (context_summary : string) :
  let enriched :=
    _build_enriched_prompt user_text intent intent_conf (default [] entities)
      (default ∅ sentiment) context_summary in
  let outcome :=
    respond self user_text intent intent_conf entities sentiment context_summary in
  let reply := snd (fst outcome) in
  let log := snd outcome in
  (1 <= attempts_made log <= 3)%nat /\
  (total_sleep log <= 4.5)%Q /\
  ((reply = _fallback_response intent sentiment /\ attempts_made log = 3%nat) \/
   (exists chat answer,
      send_message chat enriched = (_chat (fst (fst outcome)), Some answer) /\
      reply = _post_process answer)) /\
  (forall chat1 answer,
     send_message (_chat self) enriched = (chat1, Some answer) ->
     reply = _post_process answer /\ log = [SendMessage 1] /\
     _chat (fst (fst outcome)) = chat1).
Proof.
  cbv zeta. unfold respond.
  set (enriched := _build_enriched_prompt _ _ _ _ _ _).
  change (seq 1 MAX_RETRIES) with [1; 2; 3]%nat. cbn [respond_attempts].
  destruct (send_message (_chat self) enriched) as [chat1 [a1|]] eqn:E1.
  { cbn. split; [lia|]. split; [unfold Qle; simpl; lia|]. split.
    - right. exists (_chat self), a1. auto.
    - intros c a [= <- <-]. auto. }
  cbn.
  destruct (send_message chat1 enriched) as [chat2 [a2|]] eqn:E2.
  { cbn. split; [lia|]. split; [unfold Qle; simpl; lia|]. split.
    - right. exists chat1, a2. auto.
    - intros c a Hc. discriminate Hc. }
  cbn.
  destruct (send_message chat2 enriched) as [chat3 [a3|]] eqn:E3.
  { cbn. split; [lia|]. split; [unfold Qle; simpl; lia|]. split.
    - right. exists chat2, a3. auto.
    - intros c a Hc. discriminate Hc. }
  cbn. split; [lia|]. split; [unfold Qle; simpl; lia|]. split.
  - left. auto.
  - intros c a Hc. discriminate Hc.
Qed.
End RespondFurther.

Section ClientFurther.
Context {genai : GenAI} {env : Environ}.

(** X12. The constructor of [GeminiClient] raises exactly when the key is
    the empty string or the model cannot be built. A variable
    [GEMINI_API_KEY] that is not set does not make it raise: the placeholder
    key stands in. A client that is built starts from the seeded session. *)
Theorem GeminiClient_init_raises_iff :
  (GeminiClient_init = None <->
   API_KEY = "" \/ generative_model API_KEY MODEL_NAME = None) /\
  (getenv "GEMINI_API_KEY" = None ->
   API_KEY = "PASTE YOUR API KEY HERE" /\
   (GeminiClient_init = None <->
    generative_model "PASTE YOUR API KEY HERE" MODEL_NAME = None)) /\
  (getenv "GEMINI_API_KEY" = Some "" -> GeminiClient_init = None) /\
  (forall client, GeminiClient_init = Some client ->
     _chat client = start_chat (model client) seed_history /\
     reset_chat client = client).
Proof.
  assert (Hiff : GeminiClient_init = None <->
                 API_KEY = "" \/ generative_model API_KEY MODEL_NAME = None).
  { unfold GeminiClient_init. destruct (String.eqb_spec API_KEY "") as [He|Hne].
    - split; auto.
    - destruct (generative_model API_KEY MODEL_NAME) as [m|].
      + split; [discriminate|]. intros [He|Hn]; [contradiction|discriminate].
      + split; auto. }
  split; [exact Hiff|]. split; [|split].
  - intros Henv.
    assert (Hkey : API_KEY = "PASTE YOUR API KEY HERE") by (unfold API_KEY; rewrite Henv; reflexivity).
    split; [exact Hkey|]. rewrite Hiff, Hkey. split; [|auto].
    intros [He|Hn]; [discriminate He|exact Hn].
  - intros Henv. apply Hiff. left. unfold API_KEY. rewrite Henv. reflexivity.
  - intros client. unfold GeminiClient_init.
    destruct (String.eqb API_KEY ""); [discriminate|].
    destruct (generative_model API_KEY MODEL_NAME) as [m|]; [|discriminate].
    intros [= <-]. split; reflexivity.
Qed.
End ClientFurther.

Lemma append_nonempty (a b : string) : b <> "" -> a +:+ b <> "".
Proof.
  intros Hb Hab. destruct a; simpl in Hab; [contradiction|discriminate Hab].
Qed.

Lemma canned_nonempty (table : list (string * string)) (fallback intent : string) :
  fallback <> "" ->
  Forall (fun kv => snd kv <> "") table ->
  default fallback ((list_to_map table : gmap string string) !! intent) <> "".
Proof.
  intros Hf Hall.
  destruct ((list_to_map table : gmap string string) !! intent) as [v|] eqn:E;
    [|exact Hf].
  apply elem_of_list_to_map_2 in E. rewrite Forall_forall in Hall.
  apply (Hall (intent, v) E).
Qed.

(** X13. Neither fallback is ever the empty text, whatever the intent and
    the sentiment: an intent with no canned reply gets the request to
    rephrase. *)
Theorem fallbacks_never_empty (intent : string) :
  (forall sentiment, _fallback_response intent sentiment <> "") /\
  (forall sentiment, _emergency_fallback intent sentiment <> "").
Proof.
  split; intros sentiment.
  - unfold _fallback_response. apply append_nonempty.
    apply canned_nonempty; [discriminate|]. repeat constructor; discriminate.
  - unfold _emergency_fallback. apply append_nonempty.
    apply canned_nonempty; [discriminate|]. repeat constructor; discriminate.
Qed.

(* ================================================================== *)
(** * Further properties: post-processing *)
(* ================================================================== *)

Lemma drop_spaces_head l :
  match drop_spaces l with
  | [] => True
  | c :: _ => is_space c = false
  end.
Proof.
  induction l as [|c l IH]; simpl; [exact I|].
  destruct (is_space c) eqn:E; [exact IH|exact E].
Qed.

Lemma drop_spaces_fixed l :
  match l with [] => True | c :: _ => is_space c = false end -> drop_spaces l = l.
Proof. destruct l as [|c l]; simpl; [reflexivity|]. intros ->. reflexivity. Qed.

Lemma drop_spaces_idem l : drop_spaces (drop_spaces l) = drop_spaces l.
Proof. apply drop_spaces_fixed, drop_spaces_head. Qed.

Lemma drop_spaces_snoc l c :
  is_space c = false -> exists l', drop_spaces (l ++ [c]) = l' ++ [c].
Proof.
  intros Hc. induction l as [|x l IH]; simpl.
  - rewrite Hc. exists []. reflexivity.
  - destruct (is_space x); [exact IH|]. exists (x :: l). reflexivity.
Qed.

(** Dropping the spaces at the end keeps a first character that is no space. *)
Lemma rstrip_head l :
  match l with [] => True | c :: _ => is_space c = false end ->
  match rev (drop_spaces (rev l)) with [] => True | c :: _ => is_space c = false end.
Proof.
  destruct l as [|c l]; [intros _; exact I|]. intros Hc. simpl.
  destruct (drop_spaces_snoc (rev l) c Hc) as [l' ->].
  rewrite rev_app_distr. simpl. exact Hc.
Qed.

Lemma list_ascii_roundtrip l : list_ascii_of_string (string_of_list_ascii l) = l.
Proof. apply list_ascii_of_string_of_list_ascii. Qed.

Lemma strip_idem s : strip (strip s) = strip s.
Proof.
  unfold strip. rewrite list_ascii_roundtrip. f_equal.
  set (a := drop_spaces (list_ascii_of_string s)).
  rewrite (drop_spaces_fixed (rev (drop_spaces (rev a)))).
  - rewrite rev_involutive, drop_spaces_idem. reflexivity.
  - apply rstrip_head. apply drop_spaces_head.
Qed.

Lemma strip_trimmed s : trimmed (strip s).
Proof.
  unfold trimmed, strip. rewrite list_ascii_roundtrip. split.
  - apply rstrip_head, drop_spaces_head.
  - rewrite rev_involutive. apply drop_spaces_head.
Qed.

Lemma splitlines_from_chars_bounded (P : ascii -> Prop) n : forall l cur,
  (length l <= n)%nat -> Forall P cur -> Forall P l ->
  Forall (fun line => Forall P (list_ascii_of_string line)) (splitlines_from cur l).
Proof.
  induction n as [|n IH]; intros l cur Hn Hcur Hl;
    assert (Hline : Forall P (list_ascii_of_string (string_of_list_ascii (rev cur))))
      by (rewrite list_ascii_roundtrip; apply Forall_rev, Hcur).
  - destruct l; [|simpl in Hn; lia]. simpl.
    destruct cur; [constructor|]. constructor; [exact Hline|constructor].
  - destruct l as [|c l]; simpl.
    + destruct cur; [constructor|]. constructor; [exact Hline|constructor].
    + simpl in Hn. apply Forall_cons in Hl as [Hc Hl].
      destruct (Ascii.eqb c "013"%char).
      * destruct l as [|c' l'].
        -- constructor; [exact Hline|constructor].
        -- apply Forall_cons in Hl as [Hc' Hl']. simpl in Hn.
           destruct (Ascii.eqb c' "010"%char); (constructor; [exact Hline|]).
           ++ apply IH; [lia|constructor|exact Hl'].
           ++ apply IH; [simpl; lia|constructor|constructor; assumption].
      * destruct (is_linebreak c).
        -- constructor; [exact Hline|]. apply IH; [lia|constructor|exact Hl].
        -- apply IH; [lia|constructor; assumption|exact Hl].
Qed.

Lemma splitlines_chars (P : ascii -> Prop) text :
  Forall P (list_ascii_of_string text) ->
  Forall (fun line => Forall P (list_ascii_of_string line)) (splitlines text).
Proof.
  intros Hall. unfold splitlines.
  apply (splitlines_from_chars_bounded P _ _ [] (le_n _) (List.Forall_nil _) Hall).
Qed.

Lemma join_lines_empty (lines : list string) :
  Forall (fun line => line = "") lines ->
  Forall (fun c => is_space c = true) (list_ascii_of_string (join_lines lines)).
Proof.
  induction 1 as [|line lines Hline Hlines IH]; [constructor|].
  subst line. destruct lines as [|l2 lines']; [constructor|].
  change (join_lines ("" :: l2 :: lines')) with (String "010"%char (join_lines (l2 :: lines'))).
  constructor; [reflexivity|exact IH].
Qed.


(** ** Clean text is left as it is *)

Lemma chars_append a b :
  list_ascii_of_string (a +:+ b) = list_ascii_of_string a ++ list_ascii_of_string b.
Proof. induction a as [|c a IH]; simpl; [reflexivity|]. rewrite IH. reflexivity. Qed.

Lemma string_of_chars s : string_of_list_ascii (list_ascii_of_string s) = s.
Proof. apply string_of_list_ascii_of_string. Qed.

Lemma linebreak_not_cr c : is_linebreak c = false -> Ascii.eqb c "013"%char = false.
Proof.
  intros Hc. destruct (Ascii.eqb_spec c "013"%char) as [->|]; [|reflexivity].
  discriminate Hc.
Qed.

(** Reading a line up to the line feed that ends it. *)
Lemma splitlines_from_line w cur rest :
  Forall (fun c => is_linebreak c = false) w ->
  splitlines_from cur (w ++ "010"%char :: rest) =
  string_of_list_ascii (rev cur ++ w) :: splitlines_from [] rest.
Proof.
  revert cur. induction w as [|c w IH]; intros cur Hw.
  - simpl. rewrite app_nil_r. reflexivity.
  - apply Forall_cons in Hw as [Hc Hw]. cbn [app splitlines_from].
    rewrite (linebreak_not_cr _ Hc), Hc, IH by exact Hw.
    simpl. rewrite <- app_assoc. reflexivity.
Qed.

(** Reading the last line, which no line feed ends. *)
Lemma splitlines_from_last w cur :
  Forall (fun c => is_linebreak c = false) w -> rev cur ++ w <> [] ->
  splitlines_from cur w = [string_of_list_ascii (rev cur ++ w)].
Proof.
  revert cur. induction w as [|c w IH]; intros cur Hw Hne.
  - simpl. rewrite app_nil_r in *.
    destruct cur; [exfalso; apply Hne; reflexivity|reflexivity].
  - apply Forall_cons in Hw as [Hc Hw]. cbn [splitlines_from].
    rewrite (linebreak_not_cr _ Hc), Hc, IH; [|exact Hw|].
    + simpl. rewrite <- app_assoc. reflexivity.
    + simpl. rewrite <- app_assoc. simpl. intros Hnil.
      apply app_eq_nil in Hnil as [_ Hnil]. discriminate Hnil.
Qed.

Lemma join_lines_cons l l2 lines :
  list_ascii_of_string (join_lines (l :: l2 :: lines)) =
  list_ascii_of_string l ++ "010"%char :: list_ascii_of_string (join_lines (l2 :: lines)).
Proof.
  change (join_lines (l :: l2 :: lines))
    with (l +:+ String "010"%char (join_lines (l2 :: lines))).
  rewrite chars_append. reflexivity.
Qed.

(** X15, first half: cutting at line breaks undoes joining with line feeds,
    for lines that hold no line break and end with a line that is not
    empty. *)
Lemma splitlines_join_lines (lines : list string) :
  lines <> [] -> Forall no_linebreak lines -> List.last lines "" <> "" ->
  splitlines (join_lines lines) = lines.
Proof.
  intros Hne Hall Hlast. unfold splitlines.
  induction lines as [|l lines IH]; [congruence|].
  apply Forall_cons in Hall as [Hl Hall].
  destruct lines as [|l2 lines'].
  - cbn [join_lines]. rewrite splitlines_from_last; [|exact Hl|].
    + simpl. rewrite string_of_chars. reflexivity.
    + simpl. simpl in Hlast. destruct l; [congruence|discriminate].
  - rewrite join_lines_cons, splitlines_from_line by exact Hl.
    simpl rev. rewrite app_nil_l, string_of_chars. f_equal.
    apply IH; [discriminate|exact Hall|exact Hlast].
Qed.

Lemma strip_fixed s : trimmed s -> strip s = s.
Proof.
  intros [Hhd Htl]. unfold strip.
  rewrite (drop_spaces_fixed _ Hhd), (drop_spaces_fixed _ Htl), rev_involutive.
  apply string_of_chars.
Qed.

Lemma hd_app_nonempty {A} (P : A -> Prop) (a b : list A) :
  a <> [] ->
  match a with [] => True | c :: _ => P c end ->
  match a ++ b with [] => True | c :: _ => P c end.
Proof. destruct a; [congruence|]. intros _ H. exact H. Qed.

Lemma join_lines_chars_nonempty (lines : list string) :
  lines <> [] -> List.last lines "" <> "" ->
  list_ascii_of_string (join_lines lines) <> [].
Proof.
  intros Hne Hlast. destruct lines as [|l [|l2 r]]; [congruence| |].
  - simpl in *. destruct l; [congruence|discriminate].
  - rewrite join_lines_cons. intros Hnil. apply app_eq_nil in Hnil as [_ Hnil].
    discriminate Hnil.
Qed.

Lemma join_lines_trimmed (lines : list string) :
  lines <> [] -> Forall trimmed lines ->
  List.hd "" lines <> "" -> List.last lines "" <> "" ->
  trimmed (join_lines lines).
Proof.
  intros Hne Hall Hhd Hlast. split.
  - destruct lines as [|l [|l2 lines']]; [congruence| |].
    + apply Forall_cons in Hall as [[H1 _] _]. exact H1.
    + rewrite join_lines_cons. apply Forall_cons in Hall as [[H1 _] _].
      apply hd_app_nonempty; [|exact H1]. simpl in Hhd. destruct l; [congruence|discriminate].
  - clear Hhd. induction lines as [|l lines IH]; [congruence|].
    apply Forall_cons in Hall as [Hl Hall].
    destruct lines as [|l2 lines'].
    + exact (proj2 Hl).
    + rewrite join_lines_cons, rev_app_distr. simpl rev. rewrite <- app_assoc.
      assert (IH' := IH ltac:(discriminate) Hall Hlast).
      apply hd_app_nonempty; [|exact IH'].
      intros Hnil. apply (f_equal (@rev ascii)) in Hnil. rewrite rev_involutive in Hnil.
      apply (join_lines_chars_nonempty (l2 :: lines')); [discriminate|exact Hlast|exact Hnil].
Qed.



Example _post_process_keeps_blank_lines :
  _post_process ("  Hello " +:+ String "010" (String "010" (String "013" (String "010" " there  "))))
  = "Hello" +:+ String "010" (String "010" (String "010" "there")).
Proof. vm_compute. reflexivity. Qed.

(* ================================================================== *)
(** * Further properties: ChatbotCore *)
(* ================================================================== *)

Lemma deque_append_skipn {A} (W : nat) (q : list A) (x : A) :
  (length q <= W)%nat ->
  deque_append W q x = skipn (S (length q) - W) (q ++ [x]).
Proof.
  intros Hlen. unfold deque_append. rewrite length_app. cbn [length].
  destruct (Nat.ltb_spec W (length q + 1)) as [Hlt|Hge].
  - replace (S (length q) - W)%nat with 1%nat by lia.
    destruct (q ++ [x]); reflexivity.
  - replace (S (length q) - W)%nat with 0%nat by lia. reflexivity.
Qed.

Lemma deque_append_twice {A} (W : nat) (q : list A) (x y : A) :
  (length q <= W)%nat ->
  deque_append W (deque_append W q x) y = skipn (length q + 2 - W) (q ++ [x; y]).
Proof.
  intros Hlen. rewrite (deque_append_skipn W q x Hlen).
  rewrite deque_append_skipn by (rewrite length_skipn, length_app; simpl; lia).
  rewrite length_skipn, length_app. cbn [length].
  assert (Hk : (S (length q) - W <= length (q ++ [x]))%nat)
    by (rewrite length_app; simpl; lia).
  rewrite <- (drop_app_le (q ++ [x]) [y] _ Hk), <- app_assoc. cbn [app].
  rewrite drop_drop. f_equal. lia.
Qed.

Lemma add_turn_twice_turns now1 role1 text1 intent1 ents1 now2 role2 text2 intent2 ents2 m :
  (length (turns m) <= window m)%nat ->
  map turn_text
    (turns (add_turn now2 role2 text2 intent2 ents2
              (add_turn now1 role1 text1 intent1 ents1 m))) =
  skipn (length (turns m) + 2 - window m) (map turn_text (turns m) ++ [text1; text2]).
Proof.
  intros Hlen. unfold add_turn. cbn [turns window].
  rewrite (deque_append_twice _ _ _ _ Hlen), <- skipn_map, map_app. reflexivity.
Qed.

Lemma nub_NoDup_fixed l : NoDup l -> nub l = l.
Proof.
  induction 1 as [|x l Hx Hl IH]; [reflexivity|]. simpl. rewrite IH. f_equal.
  apply filter_all. intros y Hy ->. contradiction.
Qed.

Section CoreFurther.
Context {re : RegexEngine} {vec : Vectoriser} {pipes : Pipelines}
        {order : SetOrder} {fmt : PyFormat} {gateway : Gateway}.

Lemma ask_gemini_keeps self user_text label conf ents sent ctx :
  memory (fst (ask_gemini self user_text label conf ents sent ctx)) = memory self /\
  analytics (fst (ask_gemini self user_text label conf ents sent ctx)) = analytics self.
Proof.
  unfold ask_gemini, _get_gemini. destruct (_gemini self) as [c|].
  - destruct (client_respond c _ _ _ _ _ _). split; reflexivity.
  - destruct new_client as [c|]; [|split; reflexivity]. cbn.
    destruct (client_respond c _ _ _ _ _ _). split; reflexivity.
Qed.

(** The client the core holds after the [try] block. *)
Lemma ask_gemini_client self user_text label conf ents sent ctx :
  _gemini (fst (ask_gemini self user_text label conf ents sent ctx)) =
  match _gemini self with
  | Some c => Some (fst (client_respond c user_text label conf ents sent ctx))
  | None =>
      match new_client with
      | Some c => Some (fst (client_respond c user_text label conf ents sent ctx))
      | None => None
      end
  end.
Proof.
  unfold ask_gemini, _get_gemini. destruct (_gemini self) as [c|] eqn:Hheld.
  - cbn. destruct (client_respond c _ _ _ _ _ _). reflexivity.
  - destruct new_client as [c|]; cbn; [|exact Hheld].
    destruct (client_respond c _ _ _ _ _ _). reflexivity.
Qed.

(** One turn, step by step. *)
Lemma process_message_steps (clock : TurnClock) (user_text : string) (self : ChatbotCore) :
  let label := fst (predict user_text) in
  let conf := snd (predict user_text) in
  let ents := extract user_text in
  let sent := analyse user_text in
  let mem1 := add_turn (time_user_turn clock) "user" user_text (Some label) (Some ents)
                (memory self) in
  let ctx := get_summary mem1 in
  let answer := gateway_answer (_gemini self) user_text label conf ents sent ctx in
  let bot_text := match answer with Ok r => r | Raise => _emergency_fallback label sent end in
  let src := match answer with Ok _ => "gemini" | Raise => "fallback" end in
  let elapsed := ((perf_end clock - perf_start clock) * 1000)%Q in
  let client :=
    match _gemini self with
    | Some c => Some (fst (client_respond c user_text label conf ents sent ctx))
    | None =>
        match new_client with
        | Some c => Some (fst (client_respond c user_text label conf ents sent ctx))
        | None => None
        end
    end in
  process_message clock user_text self =
    Ok ({| memory := add_turn (time_bot_turn clock) "model" bot_text None None mem1;
           analytics := analytics_record (time_record clock) user_text bot_text label
                          conf ents sent elapsed (analytics self);
           _gemini := client |},
        {| text := bot_text; intent := label; intent_conf := conf;
           multi_intents := predict_multi user_text 3; entities := ents;
           sentiment := sent; source := src;
           response_time_ms := py_round 1 elapsed; context_summary := ctx |}).
Proof.
  cbv zeta. unfold process_message.
  destruct (predict user_text) as [label conf]. cbn [fst snd].
  set (mem1 := add_turn _ _ _ _ _ _).
  set (self1 := {| memory := mem1; analytics := analytics self; _gemini := _gemini self |}).
  pose proof (ask_gemini_answer self1 user_text label conf (extract user_text)
                (analyse user_text) (get_summary mem1)) as Hans.
  pose proof (ask_gemini_keeps self1 user_text label conf (extract user_text)
                (analyse user_text) (get_summary mem1)) as [Hmem Han].
  pose proof (ask_gemini_client self1 user_text label conf (extract user_text)
                (analyse user_text) (get_summary mem1)) as Hcl.
  destruct (ask_gemini self1 user_text label conf (extract user_text)
              (analyse user_text) (get_summary mem1)) as [self2 answer].
  cbn [fst snd] in *. change (_gemini self1) with (_gemini self) in Hans, Hcl.
  rewrite <- Hans, <- Hcl.
  destruct answer as [reply|]; cbn; rewrite Hmem, Han; reflexivity.
Qed.

(** X16. One turn leaves its trace: the analytics grow by one record, which
    carries the text of the user, the reply and the intent of the envelope;
    the topic trail grows by the intent; and the window holds the last
    [window] turns of what it held followed by the turn of the user and
    the reply, so that it stays within its bound. *)
Theorem process_message_bookkeeping (clock : TurnClock) (user_text : string)
    (self : ChatbotCore) :
  (length (turns (memory self)) <= window (memory self))%nat ->
  exists self' response record,
    process_message clock user_text self = Ok (self', response) /\
    analytics self' = analytics self ++ [record] /\
    rec_user_text record = user_text /\
    rec_bot_text record = text response /\
    rec_intent record = intent response /\
    rec_response_time_ms record = response_time_ms response /\
    topic_history (memory self') = topic_history (memory self) ++ [intent response] /\
    window (memory self') = window (memory self) /\
    map turn_text (turns (memory self')) =
      skipn (length (turns (memory self)) + 2 - window (memory self))
        (map turn_text (turns (memory self)) ++ [user_text; text response]) /\
    (length (turns (memory self')) <= window (memory self'))%nat.
Proof.
  intros Hlen.
  pose proof (process_message_steps clock user_text self) as Hpm.
  cbv zeta in Hpm. eexists _, _, _. split; [exact Hpm|].
  cbn [analytics text intent response_time_ms memory].
  split; [reflexivity|]. cbn [rec_user_text rec_bot_text rec_intent rec_response_time_ms].
  repeat (split; [reflexivity|]).
  assert (Hlabel : fst (predict user_text) <> "").
  { apply predict_label_nonempty. }
  split.
  - unfold add_turn. cbn [topic_history].
    destruct (String.eqb_spec (fst (predict user_text)) ""); [contradiction|].
    reflexivity.
  - split; [reflexivity|]. split; [apply (add_turn_twice_turns _ _ _ _ _ _ _ _ _ _ _ Hlen)|].
    rewrite <- (length_map turn_text), (add_turn_twice_turns _ _ _ _ _ _ _ _ _ _ _ Hlen).
    rewrite length_skipn, length_app, length_map. cbn [length window add_turn]. lia.
Qed.
End CoreFurther.

(** X16 on the first turn of a fresh core. *)
Lemma process_message_bookkeeping_witness :
  exists self' response record,
    @process_message keyword_engine failing_vectoriser constant_pipelines
      insertion_order plain_format unbuildable_gateway sample_clock "hello"
      (@ChatbotCore_init unbuildable_gateway []) = Ok (self', response) /\
    analytics self' = analytics (@ChatbotCore_init unbuildable_gateway []) ++ [record] /\
    rec_user_text record = "hello" /\
    rec_bot_text record = text response /\
    rec_intent record = intent response /\
    rec_response_time_ms record = response_time_ms response /\
    topic_history (memory self') =
      topic_history (memory (@ChatbotCore_init unbuildable_gateway [])) ++
      [intent response] /\
    window (memory self') = window (memory (@ChatbotCore_init unbuildable_gateway [])) /\
    map turn_text (turns (memory self')) =
      skipn (length (turns (memory (@ChatbotCore_init unbuildable_gateway []))) + 2
             - window (memory (@ChatbotCore_init unbuildable_gateway [])))
        (map turn_text (turns (memory (@ChatbotCore_init unbuildable_gateway []))) ++
         ["hello"; text response]) /\
    (length (turns (memory self')) <= window (memory self'))%nat.
Proof.
  apply (@process_message_bookkeeping keyword_engine failing_vectoriser
           constant_pipelines insertion_order plain_format unbuildable_gateway
           sample_clock "hello" (@ChatbotCore_init unbuildable_gateway [])).
  simpl. lia.
Defined.

Section ResetFurther.
Context {re : RegexEngine} {vec : Vectoriser} {pipes : Pipelines}
        {order : SetOrder} {fmt : PyFormat} {gateway : Gateway}.

Lemma top_intent_single label : top_intent [label] = label.
Proof.
  assert (Hne : [label] <> []) by discriminate.
  destruct (top_intent_mode [label] Hne) as [[Hin|[]] _]. symmetry. exact Hin.
Qed.

Lemma extract_keys_NoDup text : NoDup (dict_keys (extract text)).
Proof.
  unfold extract. rewrite extract_with_fold. apply extract_fold_NoDup. constructor.
Qed.

Lemma first_entities_keys (ents : list (string * list string)) :
  NoDup (dict_keys ents) ->
  dict_keys (fold_left extend_seen ents []) = dict_keys ents.
Proof.
  intros Hnd. rewrite fold_extend_seen_keys. cbn [dict_keys map].
  rewrite fold_add_key_nub. cbn [app].
  rewrite filter_all by (intros y _; apply not_elem_of_nil).
  apply nub_NoDup_fixed, Hnd.
Qed.

(** X17. After [clear_conversation] the memory has forgotten the
    conversation and the analytics have not: the summary of the next turn
    counts one turn, names the intent of that turn as the dominant one and
    lists the entity types of that turn alone, the topic trail holds that
    intent only, and the record of the turn is appended to the records
    made before the reset. *)
Theorem first_turn_after_reset (clock : TurnClock) (user_text : string)
    (self : ChatbotCore) :
  (1 <= window (memory self))%nat ->
  exists self' response record,
    process_message clock user_text (clear_conversation self) = Ok (self', response) /\
    context_summary response =
      format_summary 1 (intent response) (dict_keys (entities response)) /\
    topic_history (memory self') = [intent response] /\
    dict_keys (entities_seen (memory self')) = dict_keys (entities response) /\
    map turn_text (turns (memory self')) =
      skipn (2 - window (memory self)) [user_text; text response] /\
    analytics self' = analytics self ++ [record] /\
    rec_user_text record = user_text.
Proof.
  intros Hwin.
  pose proof (process_message_steps clock user_text (clear_conversation self)) as Hpm.
  cbv zeta in Hpm. eexists _, _, _. split; [exact Hpm|].
  cbn [context_summary intent entities text memory analytics clear_conversation].
  assert (Hlabel : fst (predict user_text) <> "") by apply predict_label_nonempty.
  assert (Htopic : forall now,
    topic_history (add_turn now "user" user_text (Some (fst (predict user_text)))
                     (Some (extract user_text)) (clear (memory self))) =
    [fst (predict user_text)]).
  { intros now. unfold add_turn, clear. cbn [topic_history].
    destruct (String.eqb_spec (fst (predict user_text)) ""); [contradiction|].
    reflexivity. }
  assert (Hkeys : forall now,
    dict_keys (entities_seen
      (add_turn now "user" user_text (Some (fst (predict user_text)))
         (Some (extract user_text)) (clear (memory self)))) =
    dict_keys (extract user_text)).
  { intros now. unfold add_turn, clear. cbn [entities_seen].
    apply first_entities_keys, extract_keys_NoDup. }
  split; [|split; [|split; [|split; [|split; [reflexivity|reflexivity]]]]].
  - unfold get_summary. rewrite Htopic, Hkeys, top_intent_single. f_equal.
    unfold add_turn, clear, deque_append. cbn [turns window app length].
    destruct (window (memory self)) as [|[|w]]; [lia|reflexivity|reflexivity].
  - unfold add_turn at 1. cbn [topic_history]. apply Htopic.
  - unfold add_turn at 1. cbn [entities_seen fold_left]. apply Hkeys.
  - rewrite add_turn_twice_turns by (cbn; lia). reflexivity.
Qed.
End ResetFurther.

(** X17 on a core that holds two records. *)
Lemma first_turn_after_reset_witness :
  exists self' response record,
    @process_message keyword_engine failing_vectoriser constant_pipelines
      insertion_order plain_format unbuildable_gateway sample_clock "hello"
      (clear_conversation (@ChatbotCore_init unbuildable_gateway sample_records))
      = Ok (self', response) /\
    context_summary response =
      @format_summary plain_format 1 (intent response) (dict_keys (entities response)) /\
    topic_history (memory self') = [intent response] /\
    dict_keys (entities_seen (memory self')) = dict_keys (entities response) /\
    map turn_text (turns (memory self')) =
      skipn (2 - window (memory (@ChatbotCore_init unbuildable_gateway sample_records)))
        ["hello"; text response] /\
    analytics self' =
      analytics (@ChatbotCore_init unbuildable_gateway sample_records) ++ [record] /\
    rec_user_text record = "hello".
Proof.
  apply (@first_turn_after_reset keyword_engine failing_vectoriser
           constant_pipelines insertion_order plain_format unbuildable_gateway
           sample_clock "hello" (@ChatbotCore_init unbuildable_gateway sample_records)).
  simpl. lia.
Defined.

(* ================================================================== *)
(** * Further properties: the orchestrator over the Gemini client *)
(* ================================================================== *)

Section GeminiCore.
Context {re : RegexEngine} {vec : Vectoriser} {pipes : Pipelines}
        {order : SetOrder} {fmt : PyFormat} {genai : GenAI} {env : Environ}.

(** When no message is answered the loop ends with the fallback text,
    however many attempts it is given. *)
Lemma respond_attempts_all_raise attempts chat enriched label sentiment :
  (forall chat', snd (send_message chat' enriched) = None) ->
  snd (fst (respond_attempts attempts chat enriched label sentiment)) =
  _fallback_response label sentiment.
Proof.
  intros Hfail. revert chat.
  induction attempts as [|attempt rest IH]; intros chat; [reflexivity|].
  cbn [respond_attempts]. pose proof (Hfail chat) as Hc.
  destruct (send_message chat enriched) as [chat' [answer|]]; [discriminate Hc|].
  destruct (attempt =? MAX_RETRIES)%nat; [reflexivity|].
  specialize (IH chat').
  destruct (respond_attempts rest chat' enriched label sentiment) as [[chat'' reply] log].
  exact IH.
Qed.

Lemma respond_all_raise (c : GeminiClient) user_text label conf ents sentiment ctx :
  (forall chat prompt, snd (send_message chat prompt) = None) ->
  snd (fst (respond c user_text label conf ents sentiment ctx)) =
  _fallback_response label sentiment.
Proof.
  intros Hfail. unfold respond.
  set (enriched := _build_enriched_prompt _ _ _ _ _ _).
  pose proof (respond_attempts_all_raise (seq 1 MAX_RETRIES) (_chat c) enriched label
                sentiment (fun chat => Hfail chat enriched)) as Hr.
  destruct (respond_attempts _ _ _ _ _) as [[chat' reply] log]. exact Hr.
Qed.

Lemma gemini_gateway_answer_Ok held (c : GeminiClient) user_text label conf ents sent ctx :
  held = Some c \/ (held = None /\ GeminiClient_init = Some c) ->
  @gateway_answer GeminiGateway held user_text label conf ents sent ctx =
  Ok (snd (fst (respond c user_text label conf (Some ents) (Some sent) ctx))).
Proof.
  intros [->|[-> Hc]]; unfold gateway_answer; cbn.
  - destruct (respond c _ _ _ _ _ _) as [[c' reply] log]. reflexivity.
  - rewrite Hc. destruct (respond c _ _ _ _ _ _) as [[c' reply] log]. reflexivity.
Qed.

(** X18. With the Gemini client behind the orchestrator, a turn is marked
    ["fallback"] exactly when the core holds no client and the constructor
    raises; no client is stored then, so the next turn tries the
    constructor again. In every other case the turn is marked ["gemini"],
    the text is what [respond] returned and the client is kept; this
    includes the case in which every message to the backend raised, where
    the text is the canned fallback of the client. *)
Theorem process_message_source (clock : TurnClock) (user_text : string)
    (self : @ChatbotCore GeminiGateway) :
  exists self' response,
    @process_message _ _ _ _ _ GeminiGateway clock user_text self = Ok (self', response) /\
    (source response = "gemini" \/ source response = "fallback") /\
    (source response = "fallback" <->
       _gemini self = None /\ GeminiClient_init = None) /\
    (source response = "fallback" ->
       _gemini self' = None /\
       text response = _emergency_fallback (intent response) (sentiment response)) /\
    (forall c : GeminiClient,
       _gemini self = Some c \/ (_gemini self = None /\ GeminiClient_init = Some c) ->
       let outcome :=
         respond c user_text (intent response) (intent_conf response)
           (Some (entities response)) (Some (sentiment response))
           (context_summary response) in
       source response = "gemini" /\
       text response = snd (fst outcome) /\
       _gemini self' = Some (fst (fst outcome)) /\
       ((forall chat prompt, snd (send_message chat prompt) = None) ->
        text response =
          _fallback_response (intent response) (Some (sentiment response)))).
Proof.
  pose proof (@process_message_steps _ _ _ _ _ GeminiGateway clock user_text self) as Hpm.
  cbv zeta in Hpm. eexists _, _. split; [exact Hpm|].
  cbn [source text intent intent_conf entities sentiment context_summary _gemini].
  set (label := fst (predict user_text)).
  set (conf := snd (predict user_text)).
  set (ctx := get_summary _).
  pose proof (gemini_gateway_answer_Raise (_gemini self) user_text label conf
                (extract user_text) (analyse user_text) ctx) as Hraise.
  pose proof (fun c => gemini_gateway_answer_Ok (_gemini self) c user_text label conf
                (extract user_text) (analyse user_text) ctx) as Hok.
  destruct (@gateway_answer GeminiGateway (_gemini self) user_text label conf
              (extract user_text) (analyse user_text) ctx) as [reply|] eqn:Hans.
  - split; [left; reflexivity|]. split.
    + split; [discriminate|]. intros Hno. apply (proj2 Hraise) in Hno. discriminate Hno.
    + split; [discriminate|]. intros c Hc. cbv zeta.
      specialize (Hok c Hc). injection Hok as Hreply.
      split; [reflexivity|]. split; [exact Hreply|]. split.
      * destruct Hc as [Hc|[Hc1 Hc2]].
        -- rewrite Hc. cbn.
           destruct (respond c _ _ _ _ _ _) as [[c' r] log]. reflexivity.
        -- rewrite Hc1. cbn. rewrite Hc2.
           destruct (respond c _ _ _ _ _ _) as [[c' r] log]. reflexivity.
      * intros Hfail. rewrite Hreply. apply respond_all_raise, Hfail.
  - destruct (proj1 Hraise eq_refl) as [Hheld Hinit].
    split; [right; reflexivity|]. split; [tauto|]. split.
    + intros _. split; [|reflexivity]. rewrite Hheld. cbn. rewrite Hinit. reflexivity.
    + intros c Hc. specialize (Hok c Hc). discriminate Hok.
Qed.
End GeminiCore.

(* ================================================================== *)
(** * Further properties: escaping *)
(* ================================================================== *)

Lemma string_app_assoc (a b c : string) : (a +:+ b) +:+ c = a +:+ (b +:+ c).
Proof.
  induction a as [|x a IH]; [reflexivity|].
  change (String x ((a +:+ b) +:+ c) = String x (a +:+ (b +:+ c))).
  rewrite IH. reflexivity.
Qed.

Lemma replace_char_app old new a b :
  replace_char old new (a +:+ b) = replace_char old new a +:+ replace_char old new b.
Proof.
  induction a as [|c a IH]; [reflexivity|].
  change (String c a +:+ b) with (String c (a +:+ b)). cbn [replace_char].
  destruct (Ascii.eqb c old); rewrite IH; [symmetry; apply string_app_assoc|reflexivity].
Qed.

Lemma _escape_app a b : _escape (a +:+ b) = _escape a +:+ _escape b.
Proof. unfold _escape. rewrite !replace_char_app. reflexivity. Qed.

Lemma _escape_char c : _escape (String c "") = escape_char c.
Proof.
  unfold _escape, escape_char. cbn [replace_char].
  destruct (Ascii.eqb_spec c "&"%char) as [->|H1]; [reflexivity|]. cbn [replace_char].
  destruct (Ascii.eqb_spec c "<"%char) as [->|H2]; [reflexivity|]. cbn [replace_char].
  destruct (Ascii.eqb_spec c ">"%char) as [->|H3]; [reflexivity|]. cbn [replace_char].
  destruct (Ascii.eqb_spec c "010"%char) as [->|H4]; reflexivity.
Qed.

Lemma _escape_escaped text : _escape text = escaped text.
Proof.
  induction text as [|c r IH]; [reflexivity|].
  change (String c r) with (String c "" +:+ r).
  rewrite _escape_app, _escape_char, IH. reflexivity.
Qed.

Lemma unescape_other c r :
  Ascii.eqb c "&"%char = false -> Ascii.eqb c "<"%char = false ->
  unescape (String c r) = String c (unescape r).
Proof. intros H1 H2. cbn [unescape]. rewrite H1, H2. reflexivity. Qed.

Lemma unescape_entity s :
  unescape ("&amp;" +:+ s) = String "&" (unescape s) /\
  unescape ("&lt;" +:+ s) = String "<" (unescape s) /\
  unescape ("&gt;" +:+ s) = String ">" (unescape s) /\
  unescape ("<br>" +:+ s) = String "010" (unescape s).
Proof. repeat split; reflexivity. Qed.

Lemma unescape_escaped text : unescape (escaped text) = text.
Proof.
  induction text as [|c r IH]; [reflexivity|].
  cbn [escaped]. unfold escape_char.
  destruct (unescape_entity (escaped r)) as (Ea & El & Eg & Eb).
  destruct (Ascii.eqb_spec c "&"%char) as [->|H1]; [rewrite Ea, IH; reflexivity|].
  destruct (Ascii.eqb_spec c "<"%char) as [->|H2]; [rewrite El, IH; reflexivity|].
  destruct (Ascii.eqb_spec c ">"%char) as [->|H3]; [rewrite Eg, IH; reflexivity|].
  destruct (Ascii.eqb_spec c "010"%char) as [->|H4]; [rewrite Eb, IH; reflexivity|].
  change (String c "" +:+ escaped r) with (String c (escaped r)).
  rewrite unescape_other, IH; [reflexivity| |]; apply Ascii.eqb_neq; assumption.
Qed.

Lemma escape_char_chars x c :
  In c (list_ascii_of_string (escape_char x)) ->
  c <> "010"%char /\ (c = x \/ In c (list_ascii_of_string "&amp;&lt;&gt;<br>")).
Proof.
  unfold escape_char.
  destruct (Ascii.eqb_spec x "&"%char) as [->|H1];
    [|destruct (Ascii.eqb_spec x "<"%char) as [->|H2];
      [|destruct (Ascii.eqb_spec x ">"%char) as [->|H3];
        [|destruct (Ascii.eqb_spec x "010"%char) as [->|H4]]]];
    cbn [list_ascii_of_string In]; intros Hin;
    repeat (destruct Hin as [<-|Hin];
            [split; [first [discriminate | exact H4]
                    |first [left; reflexivity | right; cbn; tauto]]|]);
    contradiction.
Qed.

Lemma escaped_chars text c :
  In c (list_ascii_of_string (escaped text)) ->
  c <> "010"%char /\
  (In c (list_ascii_of_string text) \/
   In c (list_ascii_of_string "&amp;&lt;&gt;<br>")).
Proof.
  induction text as [|x r IH]; [intros []|].
  cbn [escaped]. rewrite chars_append. intros Hin.
  apply in_app_or in Hin as [Hin|Hin].
  - destruct (escape_char_chars _ _ Hin) as [Hn [->|Hc]]; split; auto.
    left. left. reflexivity.
  - destruct (IH Hin) as [Hn [Hc|Hc]]; split; auto. left. right. exact Hc.
Qed.

(** X19. [_escape] translates a text character by character: the
    ampersand, the two angle brackets and the line feed become their HTML
    forms and every other character is kept, so that what one replacement
    writes is never rewritten by a later one. The escape of a
    concatenation is the concatenation of the escapes, and the escaped
    text holds no line feed. *)
Theorem escape_characterwise (text : string) :
  _escape text = escaped text /\
  (forall more, _escape (text +:+ more) = _escape text +:+ _escape more) /\
  ~ In "010"%char (list_ascii_of_string (_escape text)).
Proof.
  split; [apply _escape_escaped|]. split; [intros more; apply _escape_app|].
  rewrite _escape_escaped. intros Hin.
  destruct (escaped_chars _ _ Hin) as [Hn _]. apply Hn. reflexivity.
Qed.

(** X20. Two different texts have different escapes: a text that
    already holds an HTML entity is not mistaken for the character the
    entity stands for. *)
Theorem escape_injective (a b : string) :
  a <> b -> _escape a <> _escape b.
Proof.
  intros Hne Heq. apply Hne.
  rewrite <- (unescape_escaped a), <- (unescape_escaped b), <- !_escape_escaped, Heq.
  reflexivity.
Qed.

(** X20 on an example: the bracket and the text of its entity. *)
Lemma escape_injective_witness :
  "<" <> "&lt;" /\ _escape "<" <> _escape "&lt;".
Proof.
  split; [discriminate|]. apply (escape_injective "<" "&lt;"). discriminate.
Defined.

Example _escape_markup :
  _escape ("<b>Tom & Jerry</b>" +:+ String "010"%char "&lt;")
  = "&lt;b&gt;Tom &amp; Jerry&lt;/b&gt;<br>&amp;lt;".
Proof. reflexivity. Qed.

(* ================================================================== *)
(** * Further properties: the aggregates of the analytics *)
(* ================================================================== *)

Lemma bump_counts (etype : string) (ks : list string) (counts : list (string * nat)) :
  default 0%nat
    (dict_get etype
       (fold_left (fun counts k => dict_set k (default 0%nat (dict_get k counts) + 1)%nat counts)
          ks counts)) =
  (default 0%nat (dict_get etype counts) + list_count etype ks)%nat.
Proof.
  revert counts. induction ks as [|k ks IH]; intros counts; cbn [fold_left list_count].
  - lia.
  - rewrite IH. destruct (String.eqb_spec k etype) as [->|Hne].
    + rewrite dict_get_set_eq. cbn [from_option id]. lia.
    + rewrite dict_get_set_ne by exact Hne. reflexivity.
Qed.

Lemma bump_keys (ks : list string) (counts : list (string * nat)) :
  dict_keys
    (fold_left (fun counts k => dict_set k (default 0%nat (dict_get k counts) + 1)%nat counts)
       ks counts) =
  fold_left add_key ks (dict_keys counts).
Proof.
  revert counts. induction ks as [|k ks IH]; intros counts; cbn [fold_left]; [reflexivity|].
  rewrite IH, dict_keys_set. reflexivity.
Qed.

Lemma list_count_NoDup (etype : string) (ks : list string) :
  NoDup ks ->
  list_count etype ks = if bool_decide (etype ∈ ks) then 1%nat else 0%nat.
Proof.
  induction 1 as [|k ks Hk Hnd IH]; [reflexivity|]. cbn [list_count].
  destruct (String.eqb_spec k etype) as [->|Hne].
  - rewrite list_count_absent by (rewrite <- list_elem_of_In; exact Hk).
    rewrite bool_decide_eq_true_2 by left. reflexivity.
  - rewrite IH.
    assert (E : bool_decide (etype ∈ ks) = bool_decide (etype ∈ k :: ks)).
    { apply bool_decide_ext. rewrite elem_of_cons.
      split; [auto|]. intros [->|Hin]; [contradiction|exact Hin]. }
    rewrite E. reflexivity.
Qed.

Lemma entity_summary_fold (etype : string) (records : list AnalyticsRecord)
    (counts : list (string * nat)) :
  Forall (fun r => NoDup (dict_keys (rec_entities r))) records ->
  let final :=
    fold_left
      (fun counts r =>
         fold_left
           (fun counts k => dict_set k (default 0%nat (dict_get k counts) + 1)%nat counts)
           (dict_keys (rec_entities r)) counts)
      records counts in
  default 0%nat (dict_get etype final) =
    (default 0%nat (dict_get etype counts) + length (detected_in etype records))%nat /\
  (NoDup (dict_keys counts) -> NoDup (dict_keys final)) /\
  (In etype (dict_keys final) <->
   In etype (dict_keys counts) \/ detected_in etype records <> []).
Proof.
  cbv zeta. intros Hall. revert counts.
  induction Hall as [|r records Hr Hall IH]; intros counts; cbn [fold_left detected_in List.filter].
  - split; [cbn; lia|]. split; [auto|]. split; [auto|]. intros [Hin|Hne]; [exact Hin|congruence].
  - destruct (IH (fold_left
        (fun counts k => dict_set k (default 0%nat (dict_get k counts) + 1)%nat counts)
        (dict_keys (rec_entities r)) counts)) as (Hcount & Hnd & Hkeys).
    fold (detected_in etype records).
    split; [|split].
    + rewrite Hcount, bump_counts, (list_count_NoDup _ _ Hr).
      destruct (bool_decide (etype ∈ dict_keys (rec_entities r))); cbn [length]; lia.
    + intros Hc. apply Hnd. rewrite bump_keys.
      clear -Hc. revert Hc. generalize (dict_keys counts).
      induction (dict_keys (rec_entities r)) as [|k ks IHk]; intros acc Hacc; [exact Hacc|].
      cbn [fold_left]. apply IHk, add_key_NoDup, Hacc.
    + rewrite Hkeys, bump_keys, fold_add_key_nub, in_app_iff.
      rewrite <- !list_elem_of_In, list_elem_of_filter, nub_elem_of.
      destruct (bool_decide (etype ∈ dict_keys (rec_entities r))) eqn:Eb.
      * apply bool_decide_eq_true_1 in Eb.
        split; [intros _; right; discriminate|]. intros _.
        destruct (decide (etype ∈ dict_keys counts)); [left; left; assumption|].
        left. right. split; assumption.
      * apply bool_decide_eq_false_1 in Eb. tauto.
Qed.

(** X21. [entity_summary] counts, for every entity type, the records in
    which the type was detected: a type shows up in the summary exactly
    when some record has it, no type shows up twice, and
    [total_interactions] is the number of records. One more record adds
    one to the count of each of its types and to nothing else. *)
Theorem entity_summary_counts (records : list AnalyticsRecord) (etype : string) :
  Forall (fun r => NoDup (dict_keys (rec_entities r))) records ->
  default 0%nat (dict_get etype (entity_summary records)) =
    length (detected_in etype records) /\
  (length (detected_in etype records) <= total_interactions records)%nat /\
  (dict_get etype (entity_summary records) = None <-> detected_in etype records = []) /\
  NoDup (dict_keys (entity_summary records)) /\
  (forall r, NoDup (dict_keys (rec_entities r)) ->
     default 0%nat (dict_get etype (entity_summary (records ++ [r]))) =
     (default 0%nat (dict_get etype (entity_summary records)) +
      if bool_decide (etype ∈ dict_keys (rec_entities r)) then 1 else 0)%nat).
Proof.
  intros Hall.
  assert (Hcount : forall rs, Forall (fun r => NoDup (dict_keys (rec_entities r))) rs ->
            default 0%nat (dict_get etype (entity_summary rs)) =
            length (detected_in etype rs)).
  { intros rs Hrs. destruct (entity_summary_fold etype rs [] Hrs) as (Hc & _). exact Hc. }
  destruct (entity_summary_fold etype records [] Hall) as (_ & Hnd & Hkeys).
  split; [apply Hcount, Hall|]. split; [apply List.filter_length_le|].
  split; [|split].
  - rewrite dict_get_None. unfold entity_summary. rewrite Hkeys. cbn [dict_keys map In].
    destruct (detected_in etype records); [tauto|].
    split; [intros Hn; exfalso; apply Hn; right; discriminate|discriminate].
  - apply Hnd. constructor.
  - intros r Hr. rewrite !Hcount.
    + unfold detected_in. rewrite List.filter_app, length_app. cbn [List.filter].
      destruct (bool_decide (etype ∈ dict_keys (rec_entities r))); reflexivity.
    + exact Hall.
    + apply Forall_app. split; [exact Hall|]. constructor; [exact Hr|constructor].
Qed.

(** X21 on two records. *)
Lemma entity_summary_counts_witness :
  default 0%nat (dict_get "EMAIL" (entity_summary sample_records)) =
    length (detected_in "EMAIL" sample_records) /\
  (length (detected_in "EMAIL" sample_records) <= total_interactions sample_records)%nat /\
  (dict_get "EMAIL" (entity_summary sample_records) = None <->
   detected_in "EMAIL" sample_records = []) /\
  NoDup (dict_keys (entity_summary sample_records)) /\
  (forall r, NoDup (dict_keys (rec_entities r)) ->
     default 0%nat (dict_get "EMAIL" (entity_summary (sample_records ++ [r]))) =
     (default 0%nat (dict_get "EMAIL" (entity_summary sample_records)) +
      if bool_decide ("EMAIL" ∈ dict_keys (rec_entities r)) then 1 else 0)%nat).
Proof.
  apply (entity_summary_counts sample_records "EMAIL").
  repeat (constructor; [apply (bool_decide_unpack _); vm_compute; exact I|]).
  constructor.
Defined.

Example entity_summary_of_two_records :
  entity_summary sample_records = [("EMAIL", 2%nat); ("DATE", 1%nat)] /\
  total_interactions sample_records = 2%nat.
Proof. vm_compute. split; reflexivity. Qed.

(* ================================================================== *)
(** * Further properties: the prompt *)
(* ================================================================== *)

Lemma join_lines_last_line (lines : list string) (a u : string) :
  join_lines (lines ++ [a +:+ String "010"%char u]) =
  join_lines (lines ++ [a]) +:+ String "010"%char u.
Proof.
  induction lines as [|l lines IH]; [reflexivity|].
  destruct lines as [|l2 lines].
  - cbn [app join_lines]. rewrite string_app_assoc. reflexivity.
  - change (join_lines ((l :: l2 :: lines) ++ [a +:+ String "010"%char u]))
      with (l +:+ String "010"%char (join_lines ((l2 :: lines) ++ [a +:+ String "010"%char u]))).
    rewrite IH.
    change (join_lines ((l :: l2 :: lines) ++ [a]))
      with (l +:+ String "010"%char (join_lines ((l2 :: lines) ++ [a]))).
    rewrite string_app_assoc. reflexivity.
Qed.

Section PromptFurther.
Context {fmt : PyFormat}.

(** X22. The prompt is the context block followed by the text of the
    user, verbatim and last: the block does not depend on that text. It
    opens with the heading and the line of the intent, has one more line
    for each of the entities, the sentiment and the summary that is not
    empty, and closes with an empty line and the heading of the message. *)
Theorem build_enriched_prompt_shape (intent : string) (intent_conf : Q)
    (entities : list (string * list string)) (sentiment : gmap string PyVal)
    (context_summary : string) :
  exists optional : list string,
    length optional =
      ((match entities with [] => 0 | _ => 1 end) +
       (if bool_decide (sentiment = ∅) then 0 else 1) +
       (if String.eqb context_summary "" then 0 else 1))%nat /\
    forall user_text,
      _build_enriched_prompt user_text intent intent_conf entities sentiment
        context_summary =
      join_lines
        ([ "[NLP Context]";
           "  Detected intent : " +:+ intent +:+ " (confidence " +:+
             str_of_float intent_conf +:+ ")" ] ++
         optional ++ [""; "[User Message]"]) +:+
      String "010"%char user_text.
Proof.
  unfold _build_enriched_prompt.
  set (head := [ "[NLP Context]"; _ ]).
  set (e := match entities with [] => head | _ => _ end).
  assert (He : exists oe, e = head ++ oe /\
            length oe = match entities with [] => 0 | _ => 1 end%nat).
  { subst e. destruct entities; [exists []; rewrite app_nil_r; auto|].
    eexists [_]. split; reflexivity. }
  destruct He as (oe & -> & Hoe).
  set (s := if bool_decide (sentiment ≠ ∅) then _ else _).
  assert (Hs : exists os, s = head ++ oe ++ os /\
            length os = if bool_decide (sentiment = ∅) then 0 else 1%nat).
  { subst s. destruct (decide (sentiment = ∅)) as [Hemp|Hne].
    - rewrite bool_decide_eq_false_2 by (intros Hc; apply Hc, Hemp).
      rewrite bool_decide_eq_true_2 by exact Hemp.
      exists []. rewrite app_nil_r. auto.
    - rewrite bool_decide_eq_true_2 by exact Hne.
      rewrite bool_decide_eq_false_2 by exact Hne.
      eexists [_]. rewrite <- app_assoc. split; reflexivity. }
  destruct Hs as (os & -> & Hos).
  destruct (String.eqb context_summary "").
  - exists (oe ++ os). split; [rewrite length_app; lia|]. intros user_text.
    replace ((head ++ oe ++ os) ++ [""; "[User Message]" +:+ String "010"%char user_text])
      with ((head ++ (oe ++ os) ++ [""]) ++ ["[User Message]" +:+ String "010"%char user_text])
      by (rewrite <- !app_assoc; reflexivity).
    rewrite join_lines_last_line. f_equal. f_equal. rewrite <- !app_assoc. reflexivity.
  - eexists (oe ++ os ++ [_]). split; [rewrite !length_app; cbn [length]; lia|].
    intros user_text.
    match goal with
    | |- join_lines (?L ++ [""; ?x +:+ String "010"%char user_text]) = _ =>
        replace (L ++ [""; x +:+ String "010"%char user_text])
          with ((L ++ [""]) ++ [x +:+ String "010"%char user_text])
          by (rewrite <- !app_assoc; reflexivity)
    end.
    rewrite join_lines_last_line. f_equal. f_equal. rewrite <- !app_assoc. reflexivity.
Qed.
End PromptFurther.

(* ================================================================== *)
(** * Further properties: the session of the application *)
(* ================================================================== *)

Section SessionFurther.
Context {re : RegexEngine} {vec : Vectoriser} {pipes : Pipelines}
        {order : SetOrder} {fmt : PyFormat} {gateway : Gateway}.

End SessionFurther.
